(** * libparistraceroute: enriched traceroute output and the paris-traceroute
      command-line front end

    A shallow embedding of

    - [algorithms/outputs/traceroute_enriched_data.c]
      ([enriched_reply_shallow_copy], [map_probe_free],
      [traceroute_enriched_handler]), and
    - [paris-traceroute/paris-traceroute.c] ([main]),

    followed by the properties of these functions.

    Pointers are addresses in [N]; the C heap is a finite map from addresses
    to tagged objects.  Calls into parts of the library that are not part of
    these two files (the JSON printers, the probe builder, the event loop)
    are recorded, with their arguments, in an output trace. *)

From Stdlib Require Import ZArith QArith.
From stdpp Require Import gmap strings list.

Local Open Scope Z_scope.
Local Open Scope string_scope.
Local Open Scope list_scope.

(** ** Streams and memory shared by both files *)

Module Stdio.

Inductive stream := stdout | stderr.

(** The line feed that ends most messages. *)
Definition LF : string := String (Ascii.ascii_of_nat 10) EmptyString.

End Stdio.

Module Memory.

(** [probe_t]: only the two timestamps read by [delay_probe_reply]. *)
Record probe_t := {
  sending_time : Z;
  recv_time    : Z
}.

(** [probe_reply_t]: a pair of pointers to probes. *)
Record probe_reply_t := {
  probe_reply_probe : N;
  probe_reply_reply : N
}.

(** [enriched_reply_t]: [reply] is a pointer, [delay] a number. *)
Record enriched_reply_t := {
  reply : N;
  delay : Z
}.

Inductive object :=
| ObjProbe (p : probe_t)
| ObjProbeReply (pr : probe_reply_t)
| ObjEnrichedReply (er : enriched_reply_t)
| ObjVector (cells : list N).

(** The null pointer, where a pointer is stored or passed on; an
    allocation that fails is the answer [None] of [malloc]. *)
Definition NULL : N := 0%N.

(** [free(p)]: the cell at an allocated address disappears; on the null
    pointer, which designates no object, nothing happens; freeing any
    other address is undefined, rendered as [None]. *)
Definition free (p : N) (h : gmap N object) : option (gmap N object) :=
  match h !! p with
  | Some _ => Some (delete p h)
  | None => if decide (p = NULL) then Some h else None
  end.

(** Modelled from the spec: [delay_probe_reply] is declared outside these
    files; the data model gives "delay = recv - send", taken here over
    integer timestamps.  Both pointers must designate probes. *)
Definition delay_probe_reply (h : gmap N object) (probe reply_ : N) : option Z :=
  match h !! probe, h !! reply_ with
  | Some (ObjProbe p), Some (ObjProbe r) => Some (recv_time r - sending_time p)
  | _, _ => None
  end.

End Memory.

(** ** algorithms/outputs/traceroute_enriched_data.c *)

Module EnrichedData.
Import Stdio Memory.

Inductive mda_event_type_t :=
| MDA_NEW_LINK
| MDA_PROBE_REPLY
| MDA_PROBE_TIMEOUT
| MDA_ENDS
| MDA_OTHER (code : Z).

(** [mda_event_t]: [data] is the [void *] payload. *)
Record mda_event_t := {
  type : mda_event_type_t;
  data : N
}.

Inductive traceroute_output_format_t :=
| TRACEROUTE_OUTPUT_FORMAT_DEFAULT
| TRACEROUTE_OUTPUT_FORMAT_JSON
| TRACEROUTE_OUTPUT_FORMAT_XML.

Record traceroute_enriched_user_data_t := {
  format : traceroute_output_format_t;
  is_first_result : bool
}.

(** What the handler writes or asks the JSON printer to write, in order.
    [Reply_to_json] records the pointer it was handed and the record that
    pointer designated at the time of the call. *)
Inductive output :=
| Fprintf (f : stream) (s : string)
| Reply_to_json (enriched_reply : N) (contents : enriched_reply_t) (f : stream)
| Star_to_json (probe : N) (f : stream)
| Json_print_footer (f : stream)
| Printf (fmt : string) (arg : mda_event_type_t).

(** The diagnostic of the [default] label. *)
Definition unhandled_event : string :=
  String.append "traceroute_enriched_handler: Unhandled event %d" LF.

(** The notice of the XML cases, as passed to [fprintf]. *)
Definition not_yet_implemented : string := String.append "Not yet implemented" LF.

(** Output produced by one of the formatters, or the array separator (the
    only text the handler itself puts on stdout inside the array).  The
    diagnostic of the [default] label is not formatter output. *)
Definition is_formatted (o : output) : bool :=
  match o with
  | Reply_to_json _ _ _ | Star_to_json _ _ | Json_print_footer _ => true
  | Fprintf stdout _ => true
  | _ => false
  end.

Section Handler.

(** Build configuration ([use.h]). *)
Variable USE_FORMAT_JSON : bool.
Variable USE_FORMAT_XML : bool.

(** [malloc]: the address returned in a given heap, [None] for [NULL]. *)
Variable malloc : gmap N object -> option N.

(** [options_traceroute_get_max_ttl()]. *)
Variable options_traceroute_get_max_ttl : N.

(** [enriched_reply_shallow_copy]: the result of [malloc] is written
    through without a check, so [NULL] is undefined behaviour. *)
Definition enriched_reply_shallow_copy (reply_ : N) (h : gmap N object)
  : option (N * gmap N object) :=
  match malloc h with
  | None => None
  | Some reply_dup =>
      match h !! reply_ with
      | Some (ObjEnrichedReply r) =>
          Some (reply_dup,
                <[reply_dup := ObjEnrichedReply {| reply := reply r; delay := delay r |}]> h)
      | _ => None
      end
  end.

(** The loop of [map_probe_free], from index [i]; [fuel] bounds the
    number of iterations. *)
Fixpoint map_probe_free_from (fuel : nat) (i : N) (map : gmap N N) (h : gmap N object)
  : option (gmap N object) :=
  match fuel with
  | O => Some h
  | S fuel' =>
      if (i <? options_traceroute_get_max_ttl)%N then
        match map !! i with
        | Some replies_by_ttl_i =>
            match free replies_by_ttl_i h with
            | Some h' => map_probe_free_from fuel' (i + 1)%N map h'
            | None => None
            end
        | None => map_probe_free_from fuel' (i + 1)%N map h
        end
      else Some h
  end.

Definition map_probe_free (map : gmap N N) (h : gmap N object) : option (gmap N object) :=
  map_probe_free_from (N.to_nat options_traceroute_get_max_ttl) 1%N map h.

(** The inner switch of the [MDA_PROBE_REPLY] case. *)
Definition output_reply (user_data : traceroute_enriched_user_data_t)
    (enriched_reply : N) (contents : enriched_reply_t)
  : traceroute_enriched_user_data_t * list output :=
  match format user_data with
  | TRACEROUTE_OUTPUT_FORMAT_DEFAULT => (user_data, [])
  | TRACEROUTE_OUTPUT_FORMAT_JSON =>
      if USE_FORMAT_JSON then
        if is_first_result user_data then
          ({| format := format user_data; is_first_result := false |},
           [Reply_to_json enriched_reply contents stdout])
        else
          (user_data,
           [Fprintf stdout ", "; Reply_to_json enriched_reply contents stdout])
      else (user_data, [])
  | TRACEROUTE_OUTPUT_FORMAT_XML =>
      if USE_FORMAT_XML then (user_data, [Fprintf stderr not_yet_implemented])
      else (user_data, [])
  end.

(** The inner switch of the [MDA_PROBE_TIMEOUT] case. *)
Definition output_star (user_data : traceroute_enriched_user_data_t) (probe : N)
  : traceroute_enriched_user_data_t * list output :=
  match format user_data with
  | TRACEROUTE_OUTPUT_FORMAT_DEFAULT => (user_data, [])
  | TRACEROUTE_OUTPUT_FORMAT_JSON =>
      if USE_FORMAT_JSON then
        if is_first_result user_data then
          ({| format := format user_data; is_first_result := false |},
           [Star_to_json probe stdout])
        else
          (user_data, [Fprintf stdout ", "; Star_to_json probe stdout])
      else (user_data, [])
  | TRACEROUTE_OUTPUT_FORMAT_XML =>
      if USE_FORMAT_XML then (user_data, [Fprintf stderr not_yet_implemented])
      else (user_data, [])
  end.

(** The inner switch of the [MDA_ENDS] case. *)
Definition output_ends (user_data : traceroute_enriched_user_data_t) : list output :=
  match format user_data with
  | TRACEROUTE_OUTPUT_FORMAT_XML =>
      if USE_FORMAT_XML then [Fprintf stderr not_yet_implemented] else []
  | TRACEROUTE_OUTPUT_FORMAT_JSON =>
      if USE_FORMAT_JSON then [Json_print_footer stdout] else []
  | TRACEROUTE_OUTPUT_FORMAT_DEFAULT => []
  end.

(** The first statements of the [MDA_PROBE_REPLY] case: read the probe
    and its reply from the payload, allocate the enriched reply and fill
    its two fields.  Returns its address, its contents and the heap. *)
Definition new_enriched_reply (mda_event : mda_event_t) (h : gmap N object)
  : option (N * enriched_reply_t * gmap N object) :=
  match h !! data mda_event with
  | Some (ObjProbeReply pr) =>
      let probe := probe_reply_probe pr in
      let reply_ := probe_reply_reply pr in
      match malloc h with
      | None => None
      | Some enriched_reply =>
          match delay_probe_reply h probe reply_ with
          | None => None
          | Some d =>
              let contents := {| reply := reply_; delay := d |} in
              Some (enriched_reply, contents,
                    <[enriched_reply := ObjEnrichedReply contents]> h)
          end
      end
  | _ => None
  end.

(** [traceroute_enriched_handler].  The arguments [loop],
    [traceroute_options] and [sorted_print] are not read by the body.
    The result is the user data and heap after the call and what was
    written; [None] is undefined behaviour (a payload that is not a
    [probe_reply_t], or [malloc] returning [NULL]). *)
Definition traceroute_enriched_handler (mda_event : mda_event_t)
    (user_data : traceroute_enriched_user_data_t) (h : gmap N object)
  : option (traceroute_enriched_user_data_t * gmap N object * list output) :=
  match type mda_event with
  | MDA_PROBE_REPLY =>
      match new_enriched_reply mda_event h with
      | Some (enriched_reply, contents, h1) =>
          let '(user_data', os) := output_reply user_data enriched_reply contents in
          match free enriched_reply h1 with
          | Some h2 => Some (user_data', h2, os)
          | None => None
          end
      | None => None
      end
  | MDA_PROBE_TIMEOUT =>
      let probe := data mda_event in
      let '(user_data', os) := output_star user_data probe in
      Some (user_data', h, os)
  | MDA_ENDS =>
      (* no [break] after the inner switch: control continues into
         the [default] label *)
      Some (user_data, h,
            output_ends user_data ++ [Printf unhandled_event (type mda_event)])
  | _ =>
      Some (user_data, h, [Printf unhandled_event (type mda_event)])
  end.

(** The handler called on a sequence of events, as the event loop does;
    the outputs are concatenated. *)
Fixpoint handle_events (events : list mda_event_t)
    (user_data : traceroute_enriched_user_data_t) (h : gmap N object)
  : option (traceroute_enriched_user_data_t * gmap N object * list output) :=
  match events with
  | [] => Some (user_data, h, [])
  | ev :: events' =>
      match traceroute_enriched_handler ev user_data h with
      | Some (user_data', h', os) =>
          match handle_events events' user_data' h' with
          | Some (user_data'', h'', os') => Some (user_data'', h'', os ++ os')
          | None => None
          end
      | None => None
      end
  end.

End Handler.

End EnrichedData.

(** ** paris-traceroute/paris-traceroute.c *)

Module ParisTraceroute.
Import Stdio.

(** Constants of the C library headers. *)
Definition EXIT_SUCCESS : Z := 0.
Definition EXIT_FAILURE : Z := 1.
Definition UINT16_MAX : Z := 65535.
Definition AF_INET : Z := 2.
Definition AF_INET6 : Z := 10.

(** *** Command line stuff *)

(** Option state kept by the library modules whose option tables
    [init_options] adds, read by [main] through
    [options_traceroute_get_*], [options_mda_get_*] and
    [options_network_get_timeout]. *)
Record library_options := {
  options_traceroute_get_min_ttl : Z;
  options_traceroute_get_max_ttl : Z;
  options_traceroute_get_num_queries : Z;
  options_traceroute_get_max_undiscovered : Z;
  options_traceroute_get_do_resolv : bool;
  options_mda_get_is_set : bool;
  options_mda_get_bound : Q;
  options_mda_get_max_branch : Z;
  options_network_get_timeout : Q
}.

(** The file-level variables of paris-traceroute.c.  The bounded integer
    parameters are arrays [def; min; max; option_enabled]. *)
Record globals := {
  algorithm_names : list string;
  is_ipv4 : bool;
  is_ipv6 : bool;
  is_udp : bool;
  is_icmp : bool;
  is_verbose : bool;
  protocol_names : list string;
  dst_port : list Z;
  src_port : list Z;
  library : library_options
}.

(** Their initial values; the library's own defaults are a parameter,
    except that no MDA option has been seen yet. *)
Definition initial_globals (defaults : library_options) : globals := {|
  algorithm_names := ["paris-traceroute"; "mda"];
  is_ipv4 := false;
  is_ipv6 := false;
  is_udp := false;
  is_icmp := false;
  is_verbose := false;
  protocol_names := ["udp"; "icmp"];
  dst_port := [33457; 0; UINT16_MAX; 0];
  src_port := [33456; 0; UINT16_MAX; 1];
  library := {|
    options_traceroute_get_min_ttl := options_traceroute_get_min_ttl defaults;
    options_traceroute_get_max_ttl := options_traceroute_get_max_ttl defaults;
    options_traceroute_get_num_queries := options_traceroute_get_num_queries defaults;
    options_traceroute_get_max_undiscovered :=
      options_traceroute_get_max_undiscovered defaults;
    options_traceroute_get_do_resolv := options_traceroute_get_do_resolv defaults;
    options_mda_get_is_set := false;
    options_mda_get_bound := options_mda_get_bound defaults;
    options_mda_get_max_branch := options_mda_get_max_branch defaults;
    options_network_get_timeout := options_network_get_timeout defaults
  |}
|}.

(** One option of the command line, after tokenisation: the rows of
    [runnable_options], then the traceroute and MDA families. *)
Inductive flag :=
| opt_4
| opt_6
| opt_v
| opt_a (ALGORITHM : string)
| opt_s (PORT : Z)
| opt_d (PORT : Z)
| opt_P (PROTOCOL : string)
| opt_U
| opt_I
| opt_min_ttl (n : Z)
| opt_max_ttl (n : Z)
| opt_num_queries (n : Z)
| opt_max_undiscovered (n : Z)
| opt_do_resolv
| opt_mda_bound (bound : Q)
| opt_mda_max_branch (n : Z).

(** A command line: [argv[0]], the options, then the remaining arguments.
    [main] assumes that the target is the last argument, so the options
    come first. *)
Record cmdline := {
  program : string;
  flags : list flag;
  arguments : list string
}.

(** Modelled from the spec: the option actions of optparse
    ([opt_store_choice], [opt_store_int_lim_en]) are declared outside this
    file.  A choice must be one of the listed names and is moved to index
    0, which is where [main] reads it. *)
Fixpoint opt_store_choice_at (arg : string) (seen rest : list string)
  : option (list string) :=
  match rest with
  | [] => None
  | c :: rest' =>
      if String.eqb arg c then
        match seen with
        | [] => Some (c :: rest')
        | first :: seen' => Some (c :: seen' ++ first :: rest')
        end
      else opt_store_choice_at arg (seen ++ [c]) rest'
  end.

Definition opt_store_choice (arg : string) (choices : list string)
  : option (list string) :=
  opt_store_choice_at arg [] choices.

(** Modelled from the spec: a bounded integer option ("range 0..65535")
    is rejected outside [min, max]; otherwise the value is stored at index
    0 and the enabled mark at index 3 is set. *)
Definition opt_store_int_lim_en (arg : Z) (data : list Z) : option (list Z) :=
  let lo := nth 1 data 0 in
  let hi := nth 2 data 0 in
  if ((lo <=? arg) && (arg <=? hi))%Z then Some [arg; lo; hi; 1] else None.

(** Assignments to one variable. *)
Definition set_algorithm_names (v : list string) (g : globals) : globals :=
  {| algorithm_names := v; is_ipv4 := is_ipv4 g; is_ipv6 := is_ipv6 g;
     is_udp := is_udp g; is_icmp := is_icmp g; is_verbose := is_verbose g;
     protocol_names := protocol_names g; dst_port := dst_port g; src_port := src_port g;
     library := library g |}.

Definition set_is_ipv4 (v : bool) (g : globals) : globals :=
  {| algorithm_names := algorithm_names g; is_ipv4 := v; is_ipv6 := is_ipv6 g;
     is_udp := is_udp g; is_icmp := is_icmp g; is_verbose := is_verbose g;
     protocol_names := protocol_names g; dst_port := dst_port g; src_port := src_port g;
     library := library g |}.

Definition set_is_ipv6 (v : bool) (g : globals) : globals :=
  {| algorithm_names := algorithm_names g; is_ipv4 := is_ipv4 g; is_ipv6 := v;
     is_udp := is_udp g; is_icmp := is_icmp g; is_verbose := is_verbose g;
     protocol_names := protocol_names g; dst_port := dst_port g; src_port := src_port g;
     library := library g |}.

Definition set_is_udp (v : bool) (g : globals) : globals :=
  {| algorithm_names := algorithm_names g; is_ipv4 := is_ipv4 g; is_ipv6 := is_ipv6 g;
     is_udp := v; is_icmp := is_icmp g; is_verbose := is_verbose g;
     protocol_names := protocol_names g; dst_port := dst_port g; src_port := src_port g;
     library := library g |}.

Definition set_is_icmp (v : bool) (g : globals) : globals :=
  {| algorithm_names := algorithm_names g; is_ipv4 := is_ipv4 g; is_ipv6 := is_ipv6 g;
     is_udp := is_udp g; is_icmp := v; is_verbose := is_verbose g;
     protocol_names := protocol_names g; dst_port := dst_port g; src_port := src_port g;
     library := library g |}.

Definition set_is_verbose (v : bool) (g : globals) : globals :=
  {| algorithm_names := algorithm_names g; is_ipv4 := is_ipv4 g; is_ipv6 := is_ipv6 g;
     is_udp := is_udp g; is_icmp := is_icmp g; is_verbose := v;
     protocol_names := protocol_names g; dst_port := dst_port g; src_port := src_port g;
     library := library g |}.

Definition set_protocol_names (v : list string) (g : globals) : globals :=
  {| algorithm_names := algorithm_names g; is_ipv4 := is_ipv4 g; is_ipv6 := is_ipv6 g;
     is_udp := is_udp g; is_icmp := is_icmp g; is_verbose := is_verbose g;
     protocol_names := v; dst_port := dst_port g; src_port := src_port g;
     library := library g |}.

Definition set_dst_port (v : list Z) (g : globals) : globals :=
  {| algorithm_names := algorithm_names g; is_ipv4 := is_ipv4 g; is_ipv6 := is_ipv6 g;
     is_udp := is_udp g; is_icmp := is_icmp g; is_verbose := is_verbose g;
     protocol_names := protocol_names g; dst_port := v; src_port := src_port g;
     library := library g |}.

Definition set_src_port (v : list Z) (g : globals) : globals :=
  {| algorithm_names := algorithm_names g; is_ipv4 := is_ipv4 g; is_ipv6 := is_ipv6 g;
     is_udp := is_udp g; is_icmp := is_icmp g; is_verbose := is_verbose g;
     protocol_names := protocol_names g; dst_port := dst_port g; src_port := v;
     library := library g |}.

Definition set_library (v : library_options) (g : globals) : globals :=
  {| algorithm_names := algorithm_names g; is_ipv4 := is_ipv4 g; is_ipv6 := is_ipv6 g;
     is_udp := is_udp g; is_icmp := is_icmp g; is_verbose := is_verbose g;
     protocol_names := protocol_names g; dst_port := dst_port g; src_port := src_port g;
     library := v |}.

(** An MDA-family option records its value and that the family was used. *)
Definition mda_store (bound : option Q) (max_branch : option Z) (o : library_options)
  : library_options :=
  {| options_traceroute_get_min_ttl := options_traceroute_get_min_ttl o;
     options_traceroute_get_max_ttl := options_traceroute_get_max_ttl o;
     options_traceroute_get_num_queries := options_traceroute_get_num_queries o;
     options_traceroute_get_max_undiscovered := options_traceroute_get_max_undiscovered o;
     options_traceroute_get_do_resolv := options_traceroute_get_do_resolv o;
     options_mda_get_is_set := true;
     options_mda_get_bound := default (options_mda_get_bound o) bound;
     options_mda_get_max_branch := default (options_mda_get_max_branch o) max_branch;
     options_network_get_timeout := options_network_get_timeout o |}.

Definition traceroute_store (min_ttl max_ttl num_queries max_undiscovered : option Z)
    (do_resolv : option bool) (o : library_options) : library_options :=
  {| options_traceroute_get_min_ttl := default (options_traceroute_get_min_ttl o) min_ttl;
     options_traceroute_get_max_ttl := default (options_traceroute_get_max_ttl o) max_ttl;
     options_traceroute_get_num_queries :=
       default (options_traceroute_get_num_queries o) num_queries;
     options_traceroute_get_max_undiscovered :=
       default (options_traceroute_get_max_undiscovered o) max_undiscovered;
     options_traceroute_get_do_resolv :=
       default (options_traceroute_get_do_resolv o) do_resolv;
     options_mda_get_is_set := options_mda_get_is_set o;
     options_mda_get_bound := options_mda_get_bound o;
     options_mda_get_max_branch := options_mda_get_max_branch o;
     options_network_get_timeout := options_network_get_timeout o |}.

(** The effect of one option on the variables, following the [action] and
    [data] columns of [runnable_options]; [None] when the option parser
    rejects the value. *)
Definition apply_flag (f : flag) (g : globals) : option globals :=
  match f with
  | opt_4 => Some (set_is_ipv4 true g)
  | opt_6 => Some (set_is_ipv6 true g)
  | opt_v => Some (set_is_verbose true g)
  | opt_a a =>
      names ← opt_store_choice a (algorithm_names g);
      Some (set_algorithm_names names g)
  | opt_s p =>
      port ← opt_store_int_lim_en p (src_port g);
      Some (set_src_port port g)
  | opt_d p =>
      port ← opt_store_int_lim_en p (dst_port g);
      Some (set_dst_port port g)
  | opt_P p =>
      names ← opt_store_choice p (protocol_names g);
      Some (set_protocol_names names g)
  | opt_U => Some (set_is_udp true g)
  | opt_I => Some (set_is_icmp true g)
  | opt_min_ttl n =>
      Some (set_library (traceroute_store (Some n) None None None None (library g)) g)
  | opt_max_ttl n =>
      Some (set_library (traceroute_store None (Some n) None None None (library g)) g)
  | opt_num_queries n =>
      Some (set_library (traceroute_store None None (Some n) None None (library g)) g)
  | opt_max_undiscovered n =>
      Some (set_library (traceroute_store None None None (Some n) None (library g)) g)
  | opt_do_resolv =>
      Some (set_library (traceroute_store None None None None (Some true) (library g)) g)
  | opt_mda_bound b => Some (set_library (mda_store (Some b) None (library g)) g)
  | opt_mda_max_branch n => Some (set_library (mda_store None (Some n) (library g)) g)
  end.

(** The options are processed from left to right. *)
Fixpoint apply_flags (fs : list flag) (g : globals) : option globals :=
  match fs with
  | [] => Some g
  | f :: fs' =>
      match apply_flag f g with
      | Some g' => apply_flags fs' g'
      | None => None
      end
  end.

(** [options_parse]: the variables after parsing and the number of
    arguments that are not options, or [None] when an option is
    rejected. *)
Definition options_parse (defaults : library_options) (argv : cmdline)
  : option (globals * Z) :=
  g ← apply_flags (flags argv) (initial_globals defaults);
  Some (g, Z.of_nat (length (arguments argv))).


(** *** What [main] does to the outside world *)

Inductive address_t := Address (family : Z) (text : string).

Inductive printf_arg :=
| arg_s (s : string)
| arg_d (z : Z)
| arg_basename (path : string).

Inductive field :=
| Field_address (key : string) (a : address_t)
| Field_i16 (key : string) (v : Z).

(** The field constructors of the probe builder; [I16] holds an unsigned
    16-bit value. *)
Definition ADDRESS (key : string) (a : address_t) : field := Field_address key a.
Definition I16 (key : string) (v : Z) : field := Field_i16 key (v mod 2 ^ 16).

Record traceroute_options_t := {
  min_ttl : Z;
  max_ttl : Z;
  num_probes : Z;
  max_undiscovered : Z;
  dst_addr : address_t;
  do_resolv : bool
}.

Record mda_options_t := {
  traceroute_options : traceroute_options_t;
  bound : Q;
  max_branch : Z
}.

Inductive algorithm_options :=
| Traceroute_options (o : traceroute_options_t)
| Mda_options (o : mda_options_t).

(** Calls that reach outside [main], in program order.  [Pt_loop] is the
    event loop, inside which probes are sent.  [Option_error] is the
    option parser reporting a rejected option on stderr. *)
Inductive effect :=
| Fprintf (f : stream) (fmt : string) (args : list printf_arg)
| Perror (s : string)
| Perror_gai_strerror (errno : Z)
| Option_error
| Probe_create
| Probe_set_protocols (name1 : string) (name2 : option string)
| Probe_set_field (f : field)
| Probe_set_fields (fs : list field)
| Probe_payload_resize (n : Z)
| Pt_loop_create
| Network_set_timeout (t : Q)
| Network_set_is_verbose (b : bool)
| Pt_algorithm_add (name : string) (options : algorithm_options)
| Pt_loop
| Probe_free
| Pt_loop_free
| Free_dst_ip_num
| Exit (code : Z).

(** Results of the calls whose outcome [main] tests. *)
Record environment := {
  defaults : library_options;
  options_create : bool;
  address_guess_family : string -> option Z;
  address_from_string : Z -> string -> option address_t;
  address_to_string : address_t -> option string;
  probe_create : bool;
  packet_get_size : Z;
  pt_loop_create : bool;
  pt_algorithm_add : bool;
  pt_loop : Z;
  errno : Z
}.

(** The labels at the end of [main], and how far down the chain of
    clean-up statements each one enters. *)
Inductive label :=
| ERR_PT_LOOP | ERR_INSTANCE | ERR_UNKNOWN_ALGORITHM
| ERR_FAMILY2 | ERR_PROBE_SKEL
| ERR_LOOP_CREATE
| ERR_ADDRESS_TO_STRING | ERR_ADDRESS_IP_FROM_STRING | ERR_FAMILY
| ERR_ADDRESS_GUESS_FAMILY | ERR_IP_VERSIONS_CONFLICT | ERR_INVALID_ALGORITHM
| ERR_OPT_PARSE | ERR_INIT_OPTIONS.

Definition depth (l : label) : nat :=
  match l with
  | ERR_PT_LOOP | ERR_INSTANCE | ERR_UNKNOWN_ALGORITHM => 0
  | ERR_FAMILY2 | ERR_PROBE_SKEL => 1
  | ERR_LOOP_CREATE => 2
  | ERR_ADDRESS_TO_STRING | ERR_ADDRESS_IP_FROM_STRING | ERR_FAMILY
  | ERR_ADDRESS_GUESS_FAMILY | ERR_IP_VERSIONS_CONFLICT | ERR_INVALID_ALGORITHM => 3
  | ERR_OPT_PARSE | ERR_INIT_OPTIONS => 4
  end.

(** The statements from label [l] to the final [exit(exit_code)]. *)
Definition leave (l : label) (dst_ip_num : option string) (errno_ exit_code : Z)
  : list effect :=
  (if decide (depth l ≤ 0)%nat then [Probe_free] else []) ++
  (if decide (depth l ≤ 1)%nat then [Pt_loop_free] else []) ++
  (if decide (depth l ≤ 2)%nat then
     match dst_ip_num with Some _ => [Free_dst_ip_num] | None => [] end
   else []) ++
  (if decide (depth l ≤ 3)%nat then
     if decide (errno_ = 0) then [] else [Perror_gai_strerror errno_]
   else []) ++
  [Exit exit_code].

(** *** A monad for the body of [main]

    The state is the trace so far and the local [dst_ip_num]; a
    computation either continues with a value, jumps to a label, or has
    already left the process (the option parser exits by itself). *)

Record locals := {
  trace : list effect;
  dst_ip_num : option string
}.

Inductive stop := Goto (l : label) | Exited.

Definition run (A : Type) : Type := locals -> (A + stop) * locals.

Definition ret {A} (a : A) : run A := fun st => (inl a, st).

Definition bind {A B} (c : run A) (k : A -> run B) : run B :=
  fun st =>
    match c st with
    | (inl a, st') => k a st'
    | (inr s, st') => (inr s, st')
    end.

Definition emit (e : effect) : run unit :=
  fun st => (inl tt, {| trace := trace st ++ [e]; dst_ip_num := dst_ip_num st |}).

Definition goto {A} (l : label) : run A := fun st => (inr (Goto l), st).

Definition exited {A} : run A := fun st => (inr Exited, st).

Definition set_dst_ip_num (s : string) : run unit :=
  fun st => (inl tt, {| trace := trace st; dst_ip_num := Some s |}).

Declare Scope run_scope.
Delimit Scope run_scope with run.
Notation "x <- c ;; k" := (bind c (fun x => k))
  (at level 100, c at next level, right associativity) : run_scope.
Notation "c ;; k" := (bind c (fun _ => k))
  (at level 100, right associativity) : run_scope.

Local Open Scope run_scope.

(** *** Main program *)

Section Main.

Variable env : environment.
Variable argv : cmdline.

(** [init_options] followed by [options_parse]: the variables after
    parsing.  Modelled from the spec: a rejected option is an option
    error, reported on stderr by the parser, which ends the process with
    a non-zero code. *)
Definition parse_command_line : run globals :=
  (if options_create env then ret tt
   else
     emit (Fprintf stderr (String.append "E: Can't initialize options" LF) []) ;;
     goto ERR_INIT_OPTIONS) ;;
  match options_parse (defaults env) argv with
  | None => emit Option_error ;; emit (Exit EXIT_FAILURE) ;; exited
  | Some (g, n) =>
      if decide (n = 1) then ret g
      else
        emit (Fprintf stderr (String.append "%s: destination required" LF)
                [arg_basename (program argv)]) ;;
        goto ERR_OPT_PARSE
  end.

(** The address family: forced by -4 or -6, guessed otherwise. *)
Definition choose_family (g : globals) (dst_ip : string) : run Z :=
  if is_ipv4 g && negb (is_ipv6 g) then ret AF_INET
  else if is_ipv6 g && negb (is_ipv4 g) then ret AF_INET6
  else if is_ipv4 g && is_ipv6 g then
    emit (Fprintf stderr (String.append "Can not set both ip versions" LF) []) ;;
    goto ERR_IP_VERSIONS_CONFLICT
  else
    match address_guess_family env dst_ip with
    | Some family => ret family
    | None => goto ERR_ADDRESS_GUESS_FAMILY
    end.

Definition family_not_supported (family : Z) : effect :=
  Fprintf stderr (String.append "Internet family not supported (%d)" LF) [arg_d family].

(** Probe skeleton: protocols, destination and ports.  [protocol_name]
    is only assigned when [is_icmp] holds; [None] is the unassigned
    variable. *)
Definition prepare_probe (g : globals) (family : Z) (ip_protocol_name : string)
    (dst_addr_ : address_t) : run unit :=
  let is_icmp_ := is_icmp g || String.eqb (nth 0 (protocol_names g) "") "icmp" in
  let is_udp_ := is_udp g || String.eqb (nth 0 (protocol_names g) "") "udp" in
  protocol_name <-
    (if is_icmp_ then
       if decide (family = AF_INET) then ret (Some "icmpv4")
       else if decide (family = AF_INET6) then ret (Some "icmpv6")
       else emit (family_not_supported family) ;; goto ERR_FAMILY2
     else ret None) ;;
  emit (Probe_set_protocols ip_protocol_name protocol_name) ;;
  emit (Probe_set_field (ADDRESS "dst_ip" dst_addr_)) ;;
  (if negb is_icmp_ then
     emit (Probe_set_fields [I16 "dst_port" (nth 0 (dst_port g) 0);
                             I16 "src_port" (nth 0 (src_port g) 0)]) ;;
     emit (Probe_payload_resize 2)
   else ret tt) ;;
  (* Option -U sets port to 53 (DNS) and dst_port not explicitely set *)
  (if is_udp_ && (nth 3 (dst_port g) 0 =? 0)%Z then
     emit (Probe_set_fields [I16 "dst_port" 53])
   else ret tt).

(** Common options, copied from the library's option state. *)
Definition common_options (g : globals) (dst_addr_ : address_t) : traceroute_options_t :=
  {| min_ttl := options_traceroute_get_min_ttl (library g);
     max_ttl := options_traceroute_get_max_ttl (library g);
     num_probes := options_traceroute_get_num_queries (library g);
     max_undiscovered := options_traceroute_get_max_undiscovered (library g);
     dst_addr := dst_addr_;
     do_resolv := options_traceroute_get_do_resolv (library g) |}.

(** Dedicated options: the name under which the algorithm is added and
    its options. *)
Definition choose_algorithm (g : globals) (algorithm_name : string)
    (dst_addr_ : address_t) : run (string * algorithm_options) :=
  if String.eqb algorithm_name "paris-traceroute" then
    ret ("traceroute", Traceroute_options (common_options g dst_addr_))
  else if String.eqb algorithm_name "mda" || options_mda_get_is_set (library g) then
    ret (algorithm_name,
         Mda_options {| traceroute_options := common_options g dst_addr_;
                        bound := options_mda_get_bound (library g);
                        max_branch := options_mda_get_max_branch (library g) |})
  else
    emit (Perror "E: Unknown algorithm") ;;
    goto ERR_UNKNOWN_ALGORITHM.

Definition traceroute_options_of (o : algorithm_options) : traceroute_options_t :=
  match o with
  | Traceroute_options t => t
  | Mda_options m => traceroute_options m
  end.

(** From the creation of the loop to the end of the event loop. *)
Definition run_algorithm (g : globals) (algorithm_name dst_ip dst_ip_num_ : string)
    (dst_addr_ : address_t) : run unit :=
  chosen <- choose_algorithm g algorithm_name dst_addr_ ;;
  (if pt_loop_create env then emit Pt_loop_create
   else emit (Perror "E: Cannot create libparistraceroute loop") ;; goto ERR_LOOP_CREATE) ;;
  emit (Network_set_timeout (options_network_get_timeout (library g))) ;;
  emit (Network_set_is_verbose (is_verbose g)) ;;
  emit (Fprintf stdout
          (String.append "Traceroute to %s (%s), %u hops max, %ld bytes packets"
             (String.append LF LF))
          [arg_s dst_ip; arg_s dst_ip_num_;
           arg_d (max_ttl (traceroute_options_of (snd chosen)));
           arg_d (packet_get_size env)]) ;;
  (if pt_algorithm_add env then emit (Pt_algorithm_add (fst chosen) (snd chosen))
   else emit (Perror "E: Cannot add the chosen algorithm") ;; goto ERR_INSTANCE) ;;
  emit Pt_loop ;;
  (if decide (pt_loop env < 0) then
     emit (Perror "E: Main loop interrupted") ;; goto ERR_PT_LOOP
   else ret tt).

(** The statements of [main] up to [exit_code = EXIT_SUCCESS]. *)
Definition main_body : run unit :=
  g <- parse_command_line ;;
  (* We assume that the target IP address is always the last argument *)
  let dst_ip := List.last (arguments argv) (program argv) in
  let algorithm_name := nth 0 (algorithm_names g) "" in
  (if options_mda_get_is_set (library g) then
     if negb (String.eqb algorithm_name "mda") then
       emit (Perror
         "E: You cannot pass options related to mda when using another algorithm") ;;
       goto ERR_INVALID_ALGORITHM
     else ret tt
   else ret tt) ;;
  family <- choose_family g dst_ip ;;
  ip_protocol_name <-
    (if decide (family = AF_INET) then ret "ipv4"
     else if decide (family = AF_INET6) then ret "ipv6"
     else emit (family_not_supported family) ;; goto ERR_FAMILY) ;;
  dst_addr_ <-
    match address_from_string env family dst_ip with
    | Some a => ret a
    | None =>
        emit (Fprintf stderr (String.append "E: Invalid destination address %s" LF)
                [arg_s dst_ip]) ;;
        goto ERR_ADDRESS_IP_FROM_STRING
    end ;;
  dst_ip_num_ <-
    match address_to_string env dst_addr_ with
    | Some s => set_dst_ip_num s ;; ret s
    | None => goto ERR_ADDRESS_TO_STRING
    end ;;
  (if probe_create env then emit Probe_create
   else emit (Perror "E: Cannot create probe skeleton") ;; goto ERR_PROBE_SKEL) ;;
  prepare_probe g family ip_protocol_name dst_addr_ ;;
  run_algorithm g algorithm_name dst_ip dst_ip_num_ dst_addr_.

(** [main]: everything the process does, ending with its [exit]. *)
Definition main : list effect :=
  match main_body {| trace := []; dst_ip_num := None |} with
  | (inl _, st) => trace st ++ leave ERR_PT_LOOP (dst_ip_num st) (errno env) EXIT_SUCCESS
  | (inr (Goto l), st) => trace st ++ leave l (dst_ip_num st) (errno env) EXIT_FAILURE
  | (inr Exited, st) => trace st
  end.

End Main.

(** *** Observations on a run *)

(** The code passed to [exit]. *)
Fixpoint exit_code (tr : list effect) : option Z :=
  match tr with
  | [] => None
  | Exit c :: _ => Some c
  | _ :: tr' => exit_code tr'
  end.

Definition is_error_message (e : effect) : bool :=
  match e with
  | Fprintf stderr _ _ | Perror _ | Perror_gai_strerror _ | Option_error => true
  | _ => false
  end.

Definition reports_error (tr : list effect) : bool := existsb is_error_message tr.

Definition is_pt_loop_create (e : effect) : bool :=
  match e with Pt_loop_create => true | _ => false end.

Definition is_pt_loop (e : effect) : bool :=
  match e with Pt_loop => true | _ => false end.

Definition creates_loop (tr : list effect) : bool := existsb is_pt_loop_create tr.

(** Probes leave the host only inside the event loop. *)
Definition sends_probes (tr : list effect) : bool := existsb is_pt_loop tr.

(** The last 16-bit value written to field [key] by a list of fields. *)
Fixpoint last_i16 (key : string) (fs : list field) (acc : option Z) : option Z :=
  match fs with
  | [] => acc
  | Field_i16 k v :: fs' =>
      last_i16 key fs' (if String.eqb k key then Some v else acc)
  | _ :: fs' => last_i16 key fs' acc
  end.

(** The value of a 16-bit probe field once [tr] has run, starting from
    [acc]; [None] when the program never sets it. *)
Fixpoint probe_i16_from (key : string) (tr : list effect) (acc : option Z) : option Z :=
  match tr with
  | [] => acc
  | Probe_set_field f :: tr' => probe_i16_from key tr' (last_i16 key [f] acc)
  | Probe_set_fields fs :: tr' => probe_i16_from key tr' (last_i16 key fs acc)
  | _ :: tr' => probe_i16_from key tr' acc
  end.

Definition probe_i16 (key : string) (tr : list effect) : option Z :=
  probe_i16_from key tr None.

(** The 16-bit values a list of fields gives to field [key], in order. *)
Fixpoint i16_values (key : string) (fs : list field) : list Z :=
  match fs with
  | [] => []
  | Field_i16 k v :: fs' =>
      (if String.eqb k key then [v] else []) ++ i16_values key fs'
  | _ :: fs' => i16_values key fs'
  end.

(** The successive 16-bit values written to the probe field [key] while
    [tr] runs, first write first. *)
Fixpoint probe_i16_writes (key : string) (tr : list effect) : list Z :=
  match tr with
  | [] => []
  | Probe_set_field f :: tr' => i16_values key [f] ++ probe_i16_writes key tr'
  | Probe_set_fields fs :: tr' => i16_values key fs ++ probe_i16_writes key tr'
  | _ :: tr' => probe_i16_writes key tr'
  end.

(** Whether the run got as far as building the probe. *)
Definition is_probe_set_protocols (e : effect) : bool :=
  match e with Probe_set_protocols _ _ => true | _ => false end.

Definition prepares_probe (tr : list effect) : bool := existsb is_probe_set_protocols tr.

End ParisTraceroute.

(** ** Reference output and sample inputs *)

Module Expected.
Import Stdio Memory EnrichedData.

(** The record the JSON array receives for one event: a reply record for
    [MDA_PROBE_REPLY] (built at address [p]), a star record for
    [MDA_PROBE_TIMEOUT]. *)
Definition json_record (h : gmap N object) (p : N) (ev : mda_event_t) : option output :=
  match type ev with
  | MDA_PROBE_REPLY =>
      match h !! data ev with
      | Some (ObjProbeReply pr) =>
          d ← delay_probe_reply h (probe_reply_probe pr) (probe_reply_reply pr);
          Some (Reply_to_json p {| reply := probe_reply_reply pr; delay := d |} stdout)
      | _ => None
      end
  | MDA_PROBE_TIMEOUT => Some (Star_to_json (data ev) stdout)
  | _ => None
  end.

(** Array elements: every record but the first of the array is preceded
    by the separator. *)
Fixpoint separated (first : bool) (records : list output) : list output :=
  match records with
  | [] => []
  | r :: records' =>
      (if first then [r] else [Fprintf stdout ", "; r]) ++ separated false records'
  end.

Definition no_formatted_output (os : list output) : bool :=
  forallb (fun o => negb (is_formatted o)) os.

End Expected.

(** What a command line asks for, read off its options alone. *)

Module Requested.
Import ParisTraceroute.

Definition is_opt_U (f : flag) : bool := match f with opt_U => true | _ => false end.
Definition is_opt_I (f : flag) : bool := match f with opt_I => true | _ => false end.

Definition is_mda_option (f : flag) : bool :=
  match f with
  | opt_mda_bound _ | opt_mda_max_branch _ => true
  | _ => false
  end.

Definition given_U (argv : cmdline) : bool := existsb is_opt_U (flags argv).
Definition given_I (argv : cmdline) : bool := existsb is_opt_I (flags argv).
Definition given_mda_option (argv : cmdline) : bool := existsb is_mda_option (flags argv).

(** The last value given for an option wins. *)
Definition pick_a (acc : string) (f : flag) : string :=
  match f with opt_a a => a | _ => acc end.
Definition pick_P (acc : string) (f : flag) : string :=
  match f with opt_P p => p | _ => acc end.
Definition pick_d (acc : option Z) (f : flag) : option Z :=
  match f with opt_d p => Some p | _ => acc end.
Definition pick_s (acc : option Z) (f : flag) : option Z :=
  match f with opt_s p => Some p | _ => acc end.

Definition selected_algorithm (argv : cmdline) : string :=
  foldl pick_a "paris-traceroute" (flags argv).
Definition selected_protocol (argv : cmdline) : string :=
  foldl pick_P "udp" (flags argv).
Definition given_d (argv : cmdline) : option Z := foldl pick_d None (flags argv).
Definition given_s (argv : cmdline) : option Z := foldl pick_s None (flags argv).

End Requested.

(** Observations of the variables used to follow the option parser. *)

Module Parsed.
Import ParisTraceroute Requested.

(** The value and the enabled mark of a bounded integer parameter. *)
Definition port_state (data : list Z) : Z * Z := (nth 0 data 0, nth 3 data 0).

Definition store_d (acc : Z * Z) (f : flag) : Z * Z :=
  match f with opt_d p => (p, 1) | _ => acc end.
Definition store_s (acc : Z * Z) (f : flag) : Z * Z :=
  match f with opt_s p => (p, 1) | _ => acc end.

(** Both ports keep their bounds and stay within them. *)
Definition port_ok (data : list Z) : Prop :=
  nth 1 data 0 = 0 /\ nth 2 data 0 = UINT16_MAX /\ 0 <= nth 0 data 0 <= UINT16_MAX.

(** What [options_parse] leaves in the variables, in terms of the command
    line. *)
Record parsed_as (argv : cmdline) (g : globals) : Prop := {
  pa_algorithm : nth 0 (algorithm_names g) "" = selected_algorithm argv;
  pa_protocol : nth 0 (protocol_names g) "" = selected_protocol argv;
  pa_is_udp : is_udp g = given_U argv;
  pa_is_icmp : is_icmp g = given_I argv;
  pa_mda : options_mda_get_is_set (library g) = given_mda_option argv;
  pa_dst_port :
    port_state (dst_port g) = from_option (fun v => (v, 1)) (33457, 0) (given_d argv);
  pa_src_port :
    port_state (src_port g) = from_option (fun v => (v, 1)) (33456, 1) (given_s argv);
  pa_dst_range : 0 <= nth 0 (dst_port g) 0 <= UINT16_MAX;
  pa_src_range : 0 <= nth 0 (src_port g) 0 <= UINT16_MAX
}.

End Parsed.

Module Samples.
Import Stdio Memory EnrichedData.

(** An allocator that hands out the lowest free address above 0. *)
Definition lowest_free (h : gmap N object) : option N :=
  List.find (fun p => match h !! p with None => true | Some _ => false end)
    (List.map N.of_nat (seq 1 64)).

(** A probe sent at 100 and its reply received at 140, with the
    [probe_reply_t] that pairs them, and an enriched reply. *)
Definition heap0 : gmap N object :=
  <[1%N := ObjProbe {| sending_time := 100; recv_time := 0 |}]>
  (<[2%N := ObjProbe {| sending_time := 0; recv_time := 140 |}]>
  (<[3%N := ObjProbeReply {| probe_reply_probe := 1; probe_reply_reply := 2 |}]>
  (<[4%N := ObjEnrichedReply {| reply := 2; delay := 40 |}]> ∅))).

Definition reply_event : mda_event_t := {| type := MDA_PROBE_REPLY; data := 3 |}.
Definition timeout_event : mda_event_t := {| type := MDA_PROBE_TIMEOUT; data := 1 |}.
Definition ends_event : mda_event_t := {| type := MDA_ENDS; data := 0 |}.

Definition user_data_of (f : traceroute_output_format_t) : traceroute_enriched_user_data_t :=
  {| format := f; is_first_result := true |}.

(** Per-hop vectors at hops 1, 2 and 3, with [max_ttl = 3]. *)
Definition replies_by_ttl : gmap N N :=
  <[1%N := 10%N]> (<[2%N := 11%N]> (<[3%N := 12%N]> ∅)).

Definition vectors : gmap N object :=
  <[10%N := ObjVector []]> (<[11%N := ObjVector []]> (<[12%N := ObjVector []]> ∅)).

Import ParisTraceroute.

(** A host on which every library call succeeds and the target resolves
    to an IPv4 address. *)
Definition library_defaults : library_options := {|
  options_traceroute_get_min_ttl := 1;
  options_traceroute_get_max_ttl := 30;
  options_traceroute_get_num_queries := 3;
  options_traceroute_get_max_undiscovered := 3;
  options_traceroute_get_do_resolv := true;
  options_mda_get_is_set := false;
  options_mda_get_bound := (5 # 100)%Q;
  options_mda_get_max_branch := 16;
  options_network_get_timeout := (3 # 1)%Q
|}.

Definition friendly : environment := {|
  defaults := library_defaults;
  options_create := true;
  address_guess_family := fun _ => Some AF_INET;
  address_from_string := fun family text => Some (Address family text);
  address_to_string := fun a => match a with Address _ text => Some text end;
  probe_create := true;
  packet_get_size := 30;
  pt_loop_create := true;
  pt_algorithm_add := true;
  pt_loop := 0;
  errno := 0
|}.

Definition command (fs : list flag) : cmdline :=
  {| program := "paris-traceroute"; flags := fs; arguments := ["example.test"] |}.

End Samples.

(** ** Further functions of the two files *)

(** *** traceroute_enriched_data.c: [vector_enriched_reply_free] *)

Module EnrichedVectors.
Import Memory.

(** A sequence of calls of [free], in order. *)
Fixpoint free_cells (cells : list N) (h : gmap N object) : option (gmap N object) :=
  match cells with
  | [] => Some h
  | c :: cells' =>
      match free c h with
      | Some h' => free_cells cells' h'
      | None => None
      end
  end.

(** [vector->num_cells], for a vector kept in the heap as [ObjVector cells]. *)
Definition num_cells (cells : list N) : N := N.of_nat (length cells).

Section Vector.

(** [vector_get_ith_element] is declared outside these files and is taken
    as a parameter: the pointer it returns for the contents of a vector
    and an index. *)
Variable vector_get_ith_element : list N -> N -> N.

(** The loop of [vector_enriched_reply_free], from index [i]; the test
    [i < vector->num_cells] reads the vector at every turn; [fuel] bounds
    the number of iterations. *)
Fixpoint free_elements (fuel : nat) (i : N) (vector : N) (h : gmap N object)
  : option (gmap N object) :=
  match h !! vector with
  | Some (ObjVector cells) =>
      if (i <? num_cells cells)%N then
        match fuel with
        | O => Some h
        | S fuel' =>
            match free (vector_get_ith_element cells i) h with
            | Some h' => free_elements fuel' (i + 1)%N vector h'
            | None => None
            end
        end
      else Some h
  | _ => None
  end.

(** [vector_enriched_reply_free]: every element, then the vector itself. *)
Definition vector_enriched_reply_free (vector : N) (h : gmap N object)
  : option (gmap N object) :=
  match h !! vector with
  | Some (ObjVector cells) =>
      match free_elements (length cells) 0%N vector h with
      | Some h' => free vector h'
      | None => None
      end
  | _ => None
  end.

End Vector.

(** The indices below [bound] visited by a loop that starts at [i], at
    most [fuel] of them: the hops of [map_probe_free], the cells of
    [vector_enriched_reply_free]. *)
Fixpoint hops_from (bound : N) (fuel : nat) (i : N) : list N :=
  match fuel with
  | O => []
  | S fuel' => if (i <? bound)%N then i :: hops_from bound fuel' (i + 1)%N else []
  end.

(** The pointers [map_probe_free] passes to [free], in order. *)
Definition hop_vectors (max_ttl : N) (map : gmap N N) : list N :=
  omap (fun i => map !! i) (hops_from max_ttl (N.to_nat max_ttl) 1%N).

(** The pointers [vector_enriched_reply_free] passes to [free] in its
    loop, in order. *)
Definition elements (vector_get_ith_element : list N -> N -> N) (cells : list N) : list N :=
  vector_get_ith_element cells <$> hops_from (num_cells cells) (length cells) 0%N.

End EnrichedVectors.

(** *** paris-traceroute.c: [loop_handler] *)

Module LoopHandler.
Import Stdio ParisTraceroute.

Inductive event_type_t :=
| ALGORITHM_TERMINATED
| ALGORITHM_EVENT
| EVENT_OTHER (code : Z).

(** [event->issuer]: the name of its algorithm, its options and its data. *)
Record algorithm_instance_t := {
  name : string;
  options : algorithm_options;
  instance_data : N
}.

(** [event->data], which the handler reads as an [mda_event_t] or as a
    [traceroute_event_t] according to the name of the algorithm. *)
Inductive event_data :=
| Mda_event (e : EnrichedData.mda_event_t)
| Traceroute_event (e : N)
| No_data.

Record event_t := {
  type : event_type_t;
  issuer : algorithm_instance_t;
  data : event_data
}.

(** Calls made by the handler, in order. *)
Inductive call :=
| Printf (s : string)
| Lattice_dump (mda_data : N)
| Pt_loop_terminate
| Mda_link_dump (link : N) (do_resolv_ : bool)
| Traceroute_handler (traceroute_event : N) (traceroute_options_ : traceroute_options_t)
    (traceroute_data : N).

(** [loop_handler]; [None] when the payload is not of the kind the name of
    the algorithm announces. *)
Definition loop_handler (event : event_t) : option (list call) :=
  match type event with
  | ALGORITHM_TERMINATED =>
      let algorithm_name := name (issuer event) in
      Some ((if String.eqb algorithm_name "mda" then
               [Printf (String.append "Lattice:" LF);
                Lattice_dump (instance_data (issuer event));
                Printf LF]
             else []) ++ [Pt_loop_terminate])
  | ALGORITHM_EVENT =>
      let algorithm_name := name (issuer event) in
      if String.eqb algorithm_name "mda" then
        match data event with
        | Mda_event mda_event =>
            (* mda_options inherits traceroute_options *)
            let traceroute_options_ := traceroute_options_of (options (issuer event)) in
            match EnrichedData.type mda_event with
            | EnrichedData.MDA_NEW_LINK =>
                Some [Mda_link_dump (EnrichedData.data mda_event)
                        (do_resolv traceroute_options_)]
            | _ => Some []
            end
        | _ => None
        end
      else if String.eqb algorithm_name "traceroute" then
        match data event with
        | Traceroute_event traceroute_event =>
            Some [Traceroute_handler traceroute_event
                    (traceroute_options_of (options (issuer event)))
                    (instance_data (issuer event))]
        | _ => None
        end
      else Some []
  | EVENT_OTHER _ => Some []
  end.

Definition is_pt_loop_terminate (c : call) : bool :=
  match c with Pt_loop_terminate => true | _ => false end.

End LoopHandler.

(** *** [main] as one decision tree *)

Module MainPaths.
Import Stdio ParisTraceroute.

(** What [prepare_probe] writes for a supported address family. *)
Definition probe_setup (g : globals) (family : Z) (ip_protocol_name : string)
    (dst_addr_ : address_t) : list effect :=
  let is_icmp_ := is_icmp g || String.eqb (nth 0 (protocol_names g) "") "icmp" in
  let is_udp_ := is_udp g || String.eqb (nth 0 (protocol_names g) "") "udp" in
  [Probe_set_protocols ip_protocol_name
     (if is_icmp_ then
        Some (if decide (family = AF_INET) then "icmpv4" else "icmpv6")
      else None);
   Probe_set_field (ADDRESS "dst_ip" dst_addr_)]
  ++ (if negb is_icmp_ then
        [Probe_set_fields [I16 "dst_port" (nth 0 (dst_port g) 0);
                           I16 "src_port" (nth 0 (src_port g) 0)];
         Probe_payload_resize 2]
      else [])
  ++ (if is_udp_ && (nth 3 (dst_port g) 0 =? 0)%Z then
        [Probe_set_fields [I16 "dst_port" 53]]
      else []).

(** The choice made by [choose_algorithm], [None] for an unknown name. *)
Definition chosen_algorithm (g : globals) (algorithm_name : string)
    (dst_addr_ : address_t) : option (string * algorithm_options) :=
  if String.eqb algorithm_name "paris-traceroute" then
    Some ("traceroute", Traceroute_options (common_options g dst_addr_))
  else if String.eqb algorithm_name "mda" || options_mda_get_is_set (library g) then
    Some (algorithm_name,
          Mda_options {| traceroute_options := common_options g dst_addr_;
                         bound := options_mda_get_bound (library g);
                         max_branch := options_mda_get_max_branch (library g) |})
  else None.

(** The calls between the creation of the loop and the registration of
    the algorithm. *)
Definition loop_setup (env : environment) (g : globals) (dst_ip dst_ip_num_ : string)
    (chosen : string * algorithm_options) : list effect :=
  [Pt_loop_create;
   Network_set_timeout (options_network_get_timeout (library g));
   Network_set_is_verbose (is_verbose g);
   Fprintf stdout
     (String.append "Traceroute to %s (%s), %u hops max, %ld bytes packets"
        (String.append LF LF))
     [arg_s dst_ip; arg_s dst_ip_num_;
      arg_d (max_ttl (traceroute_options_of (snd chosen)));
      arg_d (packet_get_size env)]].

(** Where [run_algorithm] ends and what it does on the way. *)
Definition algorithm_run (env : environment) (g : globals)
    (algorithm_name dst_ip dst_ip_num_ : string) (dst_addr_ : address_t)
  : (unit + stop) * list effect :=
  match chosen_algorithm g algorithm_name dst_addr_ with
  | None => (inr (Goto ERR_UNKNOWN_ALGORITHM), [Perror "E: Unknown algorithm"])
  | Some chosen =>
      if pt_loop_create env then
        if pt_algorithm_add env then
          if decide (pt_loop env < 0) then
            (inr (Goto ERR_PT_LOOP),
             loop_setup env g dst_ip dst_ip_num_ chosen
               ++ [Pt_algorithm_add (fst chosen) (snd chosen); Pt_loop;
                   Perror "E: Main loop interrupted"])
          else
            (inl tt,
             loop_setup env g dst_ip dst_ip_num_ chosen
               ++ [Pt_algorithm_add (fst chosen) (snd chosen); Pt_loop])
        else
          (inr (Goto ERR_INSTANCE),
           loop_setup env g dst_ip dst_ip_num_ chosen
             ++ [Perror "E: Cannot add the chosen algorithm"])
      else
        (inr (Goto ERR_LOOP_CREATE), [Perror "E: Cannot create libparistraceroute loop"])
  end.

(** The end of a run that stops at [stop_] after [tr]. *)
Definition finish (env : environment) (tr : list effect) (num : option string)
    (r : unit + stop) : list effect :=
  match r with
  | inl _ => tr ++ leave ERR_PT_LOOP num (errno env) EXIT_SUCCESS
  | inr (Goto l) => tr ++ leave l num (errno env) EXIT_FAILURE
  | inr Exited => tr
  end.

(** The outcome of [choose_family]: a family, or the label it jumps to
    with the message it prints first. *)
Definition family_choice (env : environment) (g : globals) (dst_ip : string)
  : Z + label * list effect :=
  if is_ipv4 g && negb (is_ipv6 g) then inl AF_INET
  else if is_ipv6 g && negb (is_ipv4 g) then inl AF_INET6
  else if is_ipv4 g && is_ipv6 g then
    inr (ERR_IP_VERSIONS_CONFLICT,
         [Fprintf stderr (String.append "Can not set both ip versions" LF) []])
  else
    match address_guess_family env dst_ip with
    | Some family => inl family
    | None => inr (ERR_ADDRESS_GUESS_FAMILY, [])
    end.

(** [main], every path written out. *)
Definition main_paths (env : environment) (argv : cmdline) : list effect :=
  if options_create env then
    match options_parse (defaults env) argv with
    | None => [Option_error; Exit EXIT_FAILURE]
    | Some (g, n) =>
        if decide (n = 1) then
          let dst_ip := List.last (arguments argv) (program argv) in
          let algorithm_name := nth 0 (algorithm_names g) "" in
          if options_mda_get_is_set (library g) && negb (String.eqb algorithm_name "mda")
          then
            finish env
              [Perror
                 "E: You cannot pass options related to mda when using another algorithm"]
              None (inr (Goto ERR_INVALID_ALGORITHM))
          else
            match family_choice env g dst_ip with
            | inr (l, msg) => finish env msg None (inr (Goto l))
            | inl family =>
                if decide (family = AF_INET \/ family = AF_INET6) then
                  let ip_protocol_name :=
                    if decide (family = AF_INET) then "ipv4" else "ipv6" in
                  match address_from_string env family dst_ip with
                  | None =>
                      finish env
                        [Fprintf stderr
                           (String.append "E: Invalid destination address %s" LF)
                           [arg_s dst_ip]]
                        None (inr (Goto ERR_ADDRESS_IP_FROM_STRING))
                  | Some dst_addr_ =>
                      match address_to_string env dst_addr_ with
                      | None => finish env [] None (inr (Goto ERR_ADDRESS_TO_STRING))
                      | Some dst_ip_num_ =>
                          if probe_create env then
                            let '(r, tr) :=
                              algorithm_run env g algorithm_name dst_ip dst_ip_num_
                                dst_addr_ in
                            finish env
                              (Probe_create
                                 :: probe_setup g family ip_protocol_name dst_addr_ ++ tr)
                              (Some dst_ip_num_) r
                          else
                            finish env [Perror "E: Cannot create probe skeleton"]
                              (Some dst_ip_num_) (inr (Goto ERR_PROBE_SKEL))
                      end
                  end
                else
                  finish env [family_not_supported family] None (inr (Goto ERR_FAMILY))
            end
        else
          [Fprintf stderr (String.append "%s: destination required" LF)
             [arg_basename (program argv)]]
            ++ leave ERR_OPT_PARSE None (errno env) EXIT_FAILURE
    end
  else
    [Fprintf stderr (String.append "E: Can't initialize options" LF) []]
      ++ leave ERR_INIT_OPTIONS None (errno env) EXIT_FAILURE.

(** Tests on single effects. *)
Definition is_probe_create (e : effect) : bool :=
  match e with Probe_create => true | _ => false end.
Definition is_probe_free (e : effect) : bool :=
  match e with Probe_free => true | _ => false end.
Definition is_pt_loop_free (e : effect) : bool :=
  match e with Pt_loop_free => true | _ => false end.
Definition is_exit (e : effect) : bool :=
  match e with Exit _ => true | _ => false end.
Definition is_payload_resize (e : effect) : bool :=
  match e with Probe_payload_resize _ => true | _ => false end.
Definition is_perror (s : string) (e : effect) : bool :=
  match e with Perror s' => String.eqb s s' | _ => false end.
Definition is_family_not_supported (e : effect) : bool :=
  match e with
  | Fprintf stderr fmt _ =>
      String.eqb fmt (String.append "Internet family not supported (%d)" LF)
  | _ => false
  end.


(** The protocol names of the probe: the first [probe_set_protocols]. *)
Fixpoint probe_protocols (tr : list effect) : option (string * option string) :=
  match tr with
  | [] => None
  | Probe_set_protocols name1 name2 :: _ => Some (name1, name2)
  | _ :: tr' => probe_protocols tr'
  end.

(** The algorithm instance added to the loop: the first
    [pt_algorithm_add]. *)
Fixpoint registered (tr : list effect) : option (string * algorithm_options) :=
  match tr with
  | [] => None
  | Pt_algorithm_add name_ options_ :: _ => Some (name_, options_)
  | _ :: tr' => registered tr'
  end.

(** What [prepare_probe] writes: probe fields only. *)
Definition is_probe_write (e : effect) : bool :=
  match e with
  | Probe_set_protocols _ _ | Probe_set_field _ | Probe_set_fields _
  | Probe_payload_resize _ => true
  | _ => false
  end.

End MainPaths.

(** More of what a command line asks for. *)

Module RequestedMore.
Import ParisTraceroute.

Definition is_opt_4 (f : flag) : bool := match f with opt_4 => true | _ => false end.
Definition is_opt_6 (f : flag) : bool := match f with opt_6 => true | _ => false end.
Definition is_opt_v (f : flag) : bool := match f with opt_v => true | _ => false end.

Definition given_4 (argv : cmdline) : bool := existsb is_opt_4 (flags argv).
Definition given_6 (argv : cmdline) : bool := existsb is_opt_6 (flags argv).
Definition given_v (argv : cmdline) : bool := existsb is_opt_v (flags argv).

(** The same host with another answer to [address_guess_family]. *)
Definition with_guess (guess : string -> option Z) (env : environment) : environment :=
  {| defaults := defaults env;
     options_create := options_create env;
     address_guess_family := guess;
     address_from_string := address_from_string env;
     address_to_string := address_to_string env;
     probe_create := probe_create env;
     packet_get_size := packet_get_size env;
     pt_loop_create := pt_loop_create env;
     pt_algorithm_add := pt_algorithm_add env;
     pt_loop := pt_loop env;
     errno := errno env |}.

End RequestedMore.

(** More sample inputs. *)

Module MoreSamples.
Import Stdio Memory ParisTraceroute RequestedMore LoopHandler.

(** The sample host, unable to guess the family of a target. *)
Definition no_guess : environment := with_guess (fun _ => None) Samples.friendly.

(** A vector whose cells hold the pointers of its elements; an index out
    of range gives the null pointer. *)
Definition ith_pointer (cells : list N) (i : N) : N := nth (N.to_nat i) cells NULL.

(** The sample heap with a vector at 20 that holds the enriched replies at
    4 and 21 and, between them, a null pointer. *)
Definition heap_with_vector : gmap N object :=
  <[20%N := ObjVector [4%N; NULL; 21%N]]>
  (<[21%N := ObjEnrichedReply {| reply := 2; delay := 7 |}]> Samples.heap0).

(** The heap left once that vector and its two elements are freed. *)
Definition heap_without_vector : gmap N object :=
  delete 4%N Samples.heap0.

(** The heap of the per-hop vectors once hops 1 and 2 are freed. *)
Definition last_vector : gmap N object := <[12%N := ObjVector []]> ∅.

(** Hops 1 and 3 hold a null pointer, hop 2 the vector at 11. *)
Definition sparse_replies_by_ttl : gmap N N :=
  <[1%N := NULL]> (<[2%N := 11%N]> (<[3%N := NULL]> ∅)).

Definition mda_instance : algorithm_instance_t :=
  {| name := "mda";
     options := Mda_options
                  {| traceroute_options :=
                       {| min_ttl := 1; max_ttl := 30; num_probes := 3;
                          max_undiscovered := 3;
                          dst_addr := Address AF_INET "example.test";
                          do_resolv := true |};
                     bound := (5 # 100)%Q; max_branch := 16 |};
     instance_data := 7 |}.

Definition mda_terminated : event_t :=
  {| type := ALGORITHM_TERMINATED; issuer := mda_instance; data := No_data |}.

End MoreSamples.

(** ** Properties of traceroute_enriched_data.c *)

Module EnrichedDataProps.
Import Stdio Memory EnrichedData Expected.

Lemma free_insert_fresh (p : N) (o : object) (h : gmap N object) :
  h !! p = None -> free p (<[p := o]> h) = Some h.
Proof.
  intros Hp. unfold free. rewrite lookup_insert_eq.
  f_equal. rewrite delete_insert_eq. by apply delete_id.
Qed.

(** C9: [enriched_reply_shallow_copy] returns a new cell with the same
    [reply] pointer and the same [delay] as the original; the original and
    every other cell are unchanged.  [malloc] is assumed to return a
    non-null address that is not in use. *)
Theorem enriched_reply_shallow_copy_spec
    (malloc : gmap N object -> option N) (r p : N) (v : enriched_reply_t)
    (h : gmap N object) :
  h !! r = Some (ObjEnrichedReply v) ->
  malloc h = Some p ->
  h !! p = None ->
  exists h' dup,
    enriched_reply_shallow_copy malloc r h = Some (p, h')
    /\ h' !! p = Some (ObjEnrichedReply dup)
    /\ reply dup = reply v
    /\ delay dup = delay v
    /\ p <> r
    /\ h' !! r = Some (ObjEnrichedReply v)
    /\ forall q, q <> p -> h' !! q = h !! q.
Proof.
  intros Hr Hm Hp.
  assert (Hne : p <> r) by (intros ->; congruence).
  unfold enriched_reply_shallow_copy. rewrite Hm, Hr.
  eexists _, _. split; [reflexivity|].
  split; [apply lookup_insert_eq|].
  repeat split; try done.
  - by rewrite lookup_insert_ne.
  - intros q Hq. by rewrite lookup_insert_ne.
Qed.

Lemma enriched_reply_shallow_copy_spec_witness :
  exists h' dup,
    enriched_reply_shallow_copy Samples.lowest_free 4 Samples.heap0 = Some (5%N, h')
    /\ h' !! 5%N = Some (ObjEnrichedReply dup)
    /\ reply dup = 2%N
    /\ delay dup = 40
    /\ 5%N <> 4%N
    /\ h' !! 4%N = Some (ObjEnrichedReply {| reply := 2; delay := 40 |})
    /\ forall q, q <> 5%N -> h' !! q = Samples.heap0 !! q.
Proof.
  apply (enriched_reply_shallow_copy_spec Samples.lowest_free 4 5
           {| reply := 2; delay := 40 |} Samples.heap0); reflexivity.
Defined.

Section AnyBuild.

Variables (USE_FORMAT_JSON USE_FORMAT_XML : bool).
Variable malloc : gmap N object -> option N.

Abbreviation handler := (traceroute_enriched_handler USE_FORMAT_JSON USE_FORMAT_XML malloc).
Abbreviation out_reply := (output_reply USE_FORMAT_JSON USE_FORMAT_XML).
Abbreviation out_star := (output_star USE_FORMAT_JSON USE_FORMAT_XML).

(** The construction step on a well-formed reply event. *)
Lemma new_enriched_reply_eq (ev : mda_event_t) (h : gmap N object)
    (pr : probe_reply_t) (pb rp : probe_t) (p : N) :
  h !! data ev = Some (ObjProbeReply pr) ->
  h !! probe_reply_probe pr = Some (ObjProbe pb) ->
  h !! probe_reply_reply pr = Some (ObjProbe rp) ->
  malloc h = Some p ->
  let contents :=
    {| reply := probe_reply_reply pr; delay := recv_time rp - sending_time pb |} in
  new_enriched_reply malloc ev h
  = Some (p, contents, <[p := ObjEnrichedReply contents]> h).
Proof.
  intros Hd Hpb Hrp Hm. unfold new_enriched_reply, delay_probe_reply.
  by rewrite Hd, Hm, Hpb, Hrp.
Qed.

(** The whole [MDA_PROBE_REPLY] case: the heap is as before the call. *)
Lemma handler_reply_eq (ev : mda_event_t) (ud : traceroute_enriched_user_data_t)
    (h : gmap N object) (pr : probe_reply_t) (pb rp : probe_t) (p : N) :
  type ev = MDA_PROBE_REPLY ->
  h !! data ev = Some (ObjProbeReply pr) ->
  h !! probe_reply_probe pr = Some (ObjProbe pb) ->
  h !! probe_reply_reply pr = Some (ObjProbe rp) ->
  malloc h = Some p ->
  h !! p = None ->
  let contents :=
    {| reply := probe_reply_reply pr; delay := recv_time rp - sending_time pb |} in
  handler ev ud h
  = Some (fst (out_reply ud p contents), h, snd (out_reply ud p contents)).
Proof.
  intros Ht Hd Hpb Hrp Hm Hp contents. unfold traceroute_enriched_handler.
  rewrite Ht, (new_enriched_reply_eq ev h pr pb rp p) by done.
  fold contents. destruct (out_reply ud p contents) as [ud' os].
  by rewrite free_insert_fresh.
Qed.

Lemma handler_timeout_eq (ev : mda_event_t) (ud : traceroute_enriched_user_data_t)
    (h : gmap N object) :
  type ev = MDA_PROBE_TIMEOUT ->
  handler ev ud h = Some (fst (out_star ud (data ev)), h, snd (out_star ud (data ev))).
Proof.
  intros Ht. unfold traceroute_enriched_handler. rewrite Ht.
  by destruct (out_star ud (data ev)).
Qed.

(** C1: on [MDA_ENDS] the handler runs the inner switch and then the
    [default] label as well: the "Unhandled event" line is the last
    thing written, whatever the format and the build.  The timeout
    case, which ends in [break], never writes that line. *)
Theorem mda_ends_falls_through (ud : traceroute_enriched_user_data_t)
    (h : gmap N object) (payload : N) :
  handler {| type := MDA_ENDS; data := payload |} ud h
  = Some (ud, h,
          output_ends USE_FORMAT_JSON USE_FORMAT_XML ud
            ++ [Printf unhandled_event MDA_ENDS])
  /\ (forall r t,
        handler {| type := MDA_PROBE_TIMEOUT; data := payload |} ud h = Some r ->
        ~ In (Printf unhandled_event t) r.2).
Proof.
  split; [reflexivity |].
  intros r t. rewrite handler_timeout_eq by done. intros [= <-]. simpl.
  unfold output_star.
  destruct (format ud), USE_FORMAT_JSON, USE_FORMAT_XML, (is_first_result ud);
    simpl; intuition discriminate.
Qed.

(** C7: on a well-formed [MDA_PROBE_REPLY] event the handler builds, at
    the address [p] returned by [malloc], the pair made of the event's
    reply pointer and the delay (receive time of the reply minus sending
    time of the probe); the only use of that pair is the printer called
    in the same invocation (it is called when the format is JSON); and
    on return the heap is the one the handler started from, in which [p]
    is not allocated. *)
Theorem probe_reply_enriched_lifetime (ev : mda_event_t)
    (ud : traceroute_enriched_user_data_t) (h : gmap N object)
    (pr : probe_reply_t) (pb rp : probe_t) (p : N) :
  type ev = MDA_PROBE_REPLY ->
  h !! data ev = Some (ObjProbeReply pr) ->
  h !! probe_reply_probe pr = Some (ObjProbe pb) ->
  h !! probe_reply_reply pr = Some (ObjProbe rp) ->
  malloc h = Some p ->
  h !! p = None ->
  let contents :=
    {| reply := probe_reply_reply pr; delay := recv_time rp - sending_time pb |} in
  new_enriched_reply malloc ev h
  = Some (p, contents, <[p := ObjEnrichedReply contents]> h)
  /\ exists ud' os,
       handler ev ud h = Some (ud', h, os)
       /\ (forall q c f, In (Reply_to_json q c f) os -> q = p /\ c = contents)
       /\ (USE_FORMAT_JSON = true -> format ud = TRACEROUTE_OUTPUT_FORMAT_JSON ->
           In (Reply_to_json p contents stdout) os).
Proof.
  intros Ht Hd Hpb Hrp Hm Hp contents.
  split; [by apply new_enriched_reply_eq|].
  eexists _, _. split; [by apply (handler_reply_eq ev ud h pr pb rp p)|].
  fold contents. unfold output_reply. split.
  - intros q c f.
    destruct (format ud), USE_FORMAT_JSON, USE_FORMAT_XML, (is_first_result ud);
      simpl; intros Hin; intuition congruence.
  - intros -> ->. destruct (is_first_result ud); simpl; auto.
Qed.

(** C10: with the default format the handler writes nothing, on either
    stream, for a well-formed reply event and for a timeout; user data and
    heap are as before the call. *)
Theorem default_format_is_silent (ud : traceroute_enriched_user_data_t)
    (h : gmap N object) :
  format ud = TRACEROUTE_OUTPUT_FORMAT_DEFAULT ->
  (forall ev pr pb rp p,
     type ev = MDA_PROBE_REPLY ->
     h !! data ev = Some (ObjProbeReply pr) ->
     h !! probe_reply_probe pr = Some (ObjProbe pb) ->
     h !! probe_reply_reply pr = Some (ObjProbe rp) ->
     malloc h = Some p ->
     h !! p = None ->
     handler ev ud h = Some (ud, h, []))
  /\ (forall probe,
        handler {| type := MDA_PROBE_TIMEOUT; data := probe |} ud h = Some (ud, h, [])).
Proof.
  intros Hf. split.
  - intros ev pr pb rp p Ht Hd Hpb Hrp Hm Hp.
    rewrite (handler_reply_eq ev ud h pr pb rp p) by done.
    unfold output_reply. by rewrite Hf.
  - intros probe. rewrite handler_timeout_eq by done.
    unfold output_star. by rewrite Hf.
Qed.

(** C8: in a build with the XML case, when the format is XML, no event
    makes the handler call a formatter or write an array separator; a
    timeout and a well-formed reply write the notice to stderr and
    nothing else; [MDA_ENDS] writes the notice to stderr, and then the
    diagnostic of the [default] label to stdout. *)
Theorem xml_format_not_implemented (ud : traceroute_enriched_user_data_t)
    (h : gmap N object) :
  USE_FORMAT_XML = true ->
  format ud = TRACEROUTE_OUTPUT_FORMAT_XML ->
  (forall ev r, handler ev ud h = Some r -> no_formatted_output r.2 = true)
  /\ (forall probe,
        handler {| type := MDA_PROBE_TIMEOUT; data := probe |} ud h
        = Some (ud, h, [Fprintf stderr not_yet_implemented]))
  /\ (forall ev pr pb rp p,
        type ev = MDA_PROBE_REPLY ->
        h !! data ev = Some (ObjProbeReply pr) ->
        h !! probe_reply_probe pr = Some (ObjProbe pb) ->
        h !! probe_reply_reply pr = Some (ObjProbe rp) ->
        malloc h = Some p ->
        h !! p = None ->
        handler ev ud h = Some (ud, h, [Fprintf stderr not_yet_implemented]))
  /\ (forall payload,
        handler {| type := MDA_ENDS; data := payload |} ud h
        = Some (ud, h, [Fprintf stderr not_yet_implemented;
                        Printf unhandled_event MDA_ENDS])).
Proof.
  intros HX Hf. repeat split.
  - intros ev [[ud' h'] os]. unfold traceroute_enriched_handler.
    unfold output_reply, output_star, output_ends. rewrite Hf, HX.
    destruct (type ev); repeat case_match; intros; simplify_eq; reflexivity.
  - intros probe. rewrite handler_timeout_eq by done.
    unfold output_star. by rewrite Hf, HX.
  - intros ev pr pb rp p Ht Hd Hpb Hrp Hm Hp.
    rewrite (handler_reply_eq ev ud h pr pb rp p) by done.
    unfold output_reply. by rewrite Hf, HX.
  - intros payload. unfold traceroute_enriched_handler, output_ends; simpl.
    by rewrite Hf, HX.
Qed.

(** One JSON item: the handler's output for event [ev] when record [r]
    is the one expected for it. *)
Lemma handler_json_item (ev : mda_event_t) (ud : traceroute_enriched_user_data_t)
    (h : gmap N object) (p : N) (r : output) :
  USE_FORMAT_JSON = true ->
  format ud = TRACEROUTE_OUTPUT_FORMAT_JSON ->
  malloc h = Some p ->
  h !! p = None ->
  json_record h p ev = Some r ->
  handler ev ud h
  = Some ({| format := TRACEROUTE_OUTPUT_FORMAT_JSON; is_first_result := false |}, h,
          separated (is_first_result ud) [r]).
Proof.
  intros HJ Hf Hm Hp Hr. unfold json_record in Hr.
  destruct (type ev) eqn:Ht; try discriminate.
  - destruct (h !! data ev) as [[| pr | |]|] eqn:Hd; try discriminate.
    unfold delay_probe_reply in Hr.
    destruct (h !! probe_reply_probe pr) as [[pb | | |]|] eqn:Hpb; try discriminate.
    destruct (h !! probe_reply_reply pr) as [[rp | | |]|] eqn:Hrp; try discriminate.
    simpl in Hr. injection Hr as <-.
    rewrite (handler_reply_eq ev ud h pr pb rp p) by done.
    unfold output_reply. rewrite Hf, HJ.
    destruct ud as [f []]; simpl in *; by subst.
  - injection Hr as <-. rewrite handler_timeout_eq by done.
    unfold output_star. rewrite Hf, HJ.
    destruct ud as [f []]; simpl in *; by subst.
Qed.

Lemma separated_cons (first : bool) (r : output) (rs : list output) :
  separated first (r :: rs) = separated first [r] ++ separated false rs.
Proof. simpl. by rewrite app_nil_r. Qed.

(** C6: in a build with the JSON case, when the format is JSON, a
    sequence of reply and timeout events is written as the records of
    these events in order (a reply record for a reply, a star record
    for a timeout), each preceded by the separator except the first
    record of the array; and [MDA_ENDS] prints the array footer (after
    which the [default] label adds its diagnostic). *)
Theorem json_format_array (ud : traceroute_enriched_user_data_t) (h : gmap N object) :
  USE_FORMAT_JSON = true ->
  format ud = TRACEROUTE_OUTPUT_FORMAT_JSON ->
  (forall events records p,
     malloc h = Some p ->
     h !! p = None ->
     Forall2 (fun ev r => json_record h p ev = Some r) events records ->
     exists ud',
       handle_events USE_FORMAT_JSON USE_FORMAT_XML malloc events ud h
       = Some (ud', h, separated (is_first_result ud) records)
       /\ format ud' = TRACEROUTE_OUTPUT_FORMAT_JSON
       /\ is_first_result ud'
          = is_first_result ud && match events with [] => true | _ => false end)
  /\ (forall payload,
        handler {| type := MDA_ENDS; data := payload |} ud h
        = Some (ud, h, [Json_print_footer stdout; Printf unhandled_event MDA_ENDS])).
Proof.
  intros HJ Hf. split.
  - intros events records p Hm Hp Hrs.
    revert ud Hf. induction Hrs as [| ev r events records Hr _ IH]; intros ud Hf.
    + exists ud. simpl. by rewrite andb_true_r.
    + destruct (IH {| format := TRACEROUTE_OUTPUT_FORMAT_JSON; is_first_result := false |})
        as (ud' & Hrun & Hf' & Hfirst); [done |].
      exists ud'. cbn [handle_events].
      rewrite (handler_json_item ev ud h p r), Hrun by done.
      rewrite (separated_cons _ r records). repeat split; try done.
      rewrite Hfirst. simpl. by rewrite andb_false_r.
  - intros payload. unfold traceroute_enriched_handler, output_ends; simpl.
    by rewrite Hf, HJ.
Qed.

End AnyBuild.

(** The loop of [map_probe_free] never looks at keys [>= max_ttl]: a cell
    that is not the vector of a smaller key survives it. *)
Lemma map_probe_free_from_keeps (max_ttl : N) (map : gmap N N) (v : N) (o : object)
    (fuel : nat) :
  forall (i : N) (h h' : gmap N object),
    (forall j, (i <= j < max_ttl)%N -> map !! j <> Some v) ->
    h !! v = Some o ->
    map_probe_free_from max_ttl fuel i map h = Some h' ->
    h' !! v = Some o.
Proof.
  induction fuel as [| fuel IH]; intros i h h' Hother Hv; simpl.
  - by intros [= <-].
  - destruct (N.ltb_spec i max_ttl) as [Hlt | Hge]; [| by intros [= <-]].
    assert (Hnext : forall j, (i + 1 <= j < max_ttl)%N -> map !! j <> Some v)
      by (intros j Hj; apply Hother; lia).
    destruct (map !! i) as [w |] eqn:Hw; [| by apply IH].
    unfold free. destruct (h !! w) eqn:Hhw.
    + apply IH; [done |].
      rewrite lookup_delete_ne; [done |].
      intros ->. apply (Hother i); [lia | done].
    + case_decide; [by apply IH | done].
Qed.

(** C2: with [max_ttl = 3] and a vector stored at each of the hops 1, 2
    and 3, [map_probe_free] frees the vectors of hops 1 and 2 and leaves
    the vector of hop 3, the entry at key [max_ttl], allocated. *)
Theorem map_probe_free_skips_max_ttl :
  exists h',
    map_probe_free 3 Samples.replies_by_ttl Samples.vectors = Some h'
    /\ h' !! 10%N = None
    /\ h' !! 11%N = None
    /\ h' !! 12%N = Some (ObjVector []).
Proof. eexists. split; [reflexivity |]. repeat split; reflexivity. Qed.

Lemma probe_reply_enriched_lifetime_witness :
  let contents := {| reply := 2%N; delay := 40 |} in
  new_enriched_reply Samples.lowest_free Samples.reply_event Samples.heap0
  = Some (5%N, contents, <[5%N := ObjEnrichedReply contents]> Samples.heap0)
  /\ exists ud' os,
       traceroute_enriched_handler true true Samples.lowest_free Samples.reply_event
         (Samples.user_data_of TRACEROUTE_OUTPUT_FORMAT_JSON) Samples.heap0
       = Some (ud', Samples.heap0, os)
       /\ (forall q c f, In (Reply_to_json q c f) os -> q = 5%N /\ c = contents)
       /\ (true = true ->
           format (Samples.user_data_of TRACEROUTE_OUTPUT_FORMAT_JSON)
           = TRACEROUTE_OUTPUT_FORMAT_JSON ->
           In (Reply_to_json 5 contents stdout) os).
Proof.
  apply (probe_reply_enriched_lifetime true true Samples.lowest_free Samples.reply_event
           (Samples.user_data_of TRACEROUTE_OUTPUT_FORMAT_JSON) Samples.heap0
           {| probe_reply_probe := 1; probe_reply_reply := 2 |}
           {| sending_time := 100; recv_time := 0 |}
           {| sending_time := 0; recv_time := 140 |} 5); reflexivity.
Defined.

Lemma default_format_is_silent_witness :
  let ud := Samples.user_data_of TRACEROUTE_OUTPUT_FORMAT_DEFAULT in
  traceroute_enriched_handler true true Samples.lowest_free Samples.reply_event ud
    Samples.heap0 = Some (ud, Samples.heap0, [])
  /\ traceroute_enriched_handler true true Samples.lowest_free Samples.timeout_event ud
       Samples.heap0 = Some (ud, Samples.heap0, []).
Proof.
  destruct (default_format_is_silent true true Samples.lowest_free
              (Samples.user_data_of TRACEROUTE_OUTPUT_FORMAT_DEFAULT) Samples.heap0
              eq_refl) as [Hreply Htimeout].
  split; [| apply Htimeout].
  apply (Hreply Samples.reply_event
           {| probe_reply_probe := 1; probe_reply_reply := 2 |}
           {| sending_time := 100; recv_time := 0 |}
           {| sending_time := 0; recv_time := 140 |} 5%N); reflexivity.
Defined.

Lemma xml_format_not_implemented_witness :
  let ud := Samples.user_data_of TRACEROUTE_OUTPUT_FORMAT_XML in
  traceroute_enriched_handler true true Samples.lowest_free Samples.timeout_event ud
    Samples.heap0
  = Some (ud, Samples.heap0, [Fprintf stderr not_yet_implemented])
  /\ traceroute_enriched_handler true true Samples.lowest_free Samples.reply_event ud
       Samples.heap0
     = Some (ud, Samples.heap0, [Fprintf stderr not_yet_implemented])
  /\ traceroute_enriched_handler true true Samples.lowest_free Samples.ends_event ud
       Samples.heap0
     = Some (ud, Samples.heap0,
             [Fprintf stderr not_yet_implemented; Printf unhandled_event MDA_ENDS]).
Proof.
  destruct (xml_format_not_implemented true true Samples.lowest_free
              (Samples.user_data_of TRACEROUTE_OUTPUT_FORMAT_XML) Samples.heap0
              eq_refl eq_refl) as (_ & Htimeout & Hreply & Hends).
  split; [apply Htimeout |]. split; [| apply Hends].
  apply (Hreply Samples.reply_event
           {| probe_reply_probe := 1; probe_reply_reply := 2 |}
           {| sending_time := 100; recv_time := 0 |}
           {| sending_time := 0; recv_time := 140 |} 5%N); reflexivity.
Defined.

Lemma json_format_array_witness :
  (exists ud',
     handle_events true true Samples.lowest_free
       [Samples.reply_event; Samples.timeout_event; Samples.reply_event]
       (Samples.user_data_of TRACEROUTE_OUTPUT_FORMAT_JSON) Samples.heap0
     = Some (ud', Samples.heap0,
             [Reply_to_json 5 {| reply := 2; delay := 40 |} stdout;
              Fprintf stdout ", "; Star_to_json 1 stdout;
              Fprintf stdout ", "; Reply_to_json 5 {| reply := 2; delay := 40 |} stdout])
     /\ format ud' = TRACEROUTE_OUTPUT_FORMAT_JSON
     /\ is_first_result ud' = false)
  /\ traceroute_enriched_handler true true Samples.lowest_free Samples.ends_event
       (Samples.user_data_of TRACEROUTE_OUTPUT_FORMAT_JSON) Samples.heap0
     = Some (Samples.user_data_of TRACEROUTE_OUTPUT_FORMAT_JSON, Samples.heap0,
             [Json_print_footer stdout; Printf unhandled_event MDA_ENDS]).
Proof.
  destruct (json_format_array true true Samples.lowest_free
              (Samples.user_data_of TRACEROUTE_OUTPUT_FORMAT_JSON) Samples.heap0
              eq_refl eq_refl) as [Hitems Hends].
  split; [| apply Hends].
  apply (Hitems [Samples.reply_event; Samples.timeout_event; Samples.reply_event]
           [Reply_to_json 5 {| reply := 2; delay := 40 |} stdout;
            Star_to_json 1 stdout;
            Reply_to_json 5 {| reply := 2; delay := 40 |} stdout] 5%N);
    try reflexivity.
  repeat constructor.
Defined.

End EnrichedDataProps.

(** ** Properties of paris-traceroute.c *)

Module ParisTracerouteProps.
Import Stdio ParisTraceroute Requested Parsed.

(** *** The option parser, option by option *)

(** An observation of the variables that each option updates by [step]
    is, after the whole command line, the fold of [step]. *)
Lemma apply_flags_fold {X : Type} (obs : globals -> X) (step : X -> flag -> X) :
  (forall f g g', apply_flag f g = Some g' -> obs g' = step (obs g) f) ->
  forall fs g g', apply_flags fs g = Some g' -> obs g' = foldl step (obs g) fs.
Proof.
  intros Hstep fs. induction fs as [| f fs IH]; intros g g'; simpl.
  - by intros [= <-].
  - destruct (apply_flag f g) as [g1 |] eqn:Hf; [| done].
    intros Hfs. rewrite <- (Hstep f g g1 Hf). by apply IH.
Qed.

(** A property of the variables that each option preserves holds after
    the whole command line. *)
Lemma apply_flags_invariant (P : globals -> Prop) :
  (forall f g g', apply_flag f g = Some g' -> P g -> P g') ->
  forall fs g g', apply_flags fs g = Some g' -> P g -> P g'.
Proof.
  intros Hstep fs. induction fs as [| f fs IH]; intros g g'; simpl.
  - by intros [= <-].
  - destruct (apply_flag f g) as [g1 |] eqn:Hf; [| done]. eauto.
Qed.

Lemma opt_store_choice_at_head (arg : string) (rest seen names : list string) :
  opt_store_choice_at arg seen rest = Some names -> nth 0 names "" = arg.
Proof.
  revert seen. induction rest as [| c rest IH]; intros seen; simpl; [done |].
  destruct (String.eqb_spec arg c) as [-> | _]; [| apply IH].
  destruct seen; by intros [= <-].
Qed.

Lemma opt_store_choice_head (arg : string) (choices names : list string) :
  opt_store_choice arg choices = Some names -> nth 0 names "" = arg.
Proof. apply opt_store_choice_at_head. Qed.

Ltac by_option f H :=
  destruct f; simpl in H; simplify_option_eq; try reflexivity.

Lemma foldl_orb (p : flag -> bool) (fs : list flag) (b : bool) :
  foldl (fun acc f => acc || p f) b fs = b || existsb p fs.
Proof.
  revert b. induction fs as [| f fs IH]; intros b; simpl.
  - by rewrite orb_false_r.
  - by rewrite IH, orb_assoc.
Qed.

Section AfterParsing.

Variables (fs : list flag) (g0 g : globals).
Hypothesis parsed : apply_flags fs g0 = Some g.

Lemma parsed_algorithm :
  nth 0 (algorithm_names g) "" = foldl pick_a (nth 0 (algorithm_names g0) "") fs.
Proof.
  revert parsed. apply (apply_flags_fold (fun g => nth 0 (algorithm_names g) "") pick_a).
  intros f g1 g2 H. by_option f H. eauto using opt_store_choice_head.
Qed.

Lemma parsed_protocol :
  nth 0 (protocol_names g) "" = foldl pick_P (nth 0 (protocol_names g0) "") fs.
Proof.
  revert parsed. apply (apply_flags_fold (fun g => nth 0 (protocol_names g) "") pick_P).
  intros f g1 g2 H. by_option f H. eauto using opt_store_choice_head.
Qed.

Lemma parsed_is_udp : is_udp g = is_udp g0 || existsb is_opt_U fs.
Proof.
  rewrite <- foldl_orb. revert parsed.
  apply (apply_flags_fold is_udp (fun acc f => acc || is_opt_U f)).
  intros f g1 g2 H. by_option f H; by rewrite ?orb_false_r, ?orb_true_r.
Qed.

Lemma parsed_is_icmp : is_icmp g = is_icmp g0 || existsb is_opt_I fs.
Proof.
  rewrite <- foldl_orb. revert parsed.
  apply (apply_flags_fold is_icmp (fun acc f => acc || is_opt_I f)).
  intros f g1 g2 H. by_option f H; by rewrite ?orb_false_r, ?orb_true_r.
Qed.

Lemma parsed_mda_is_set :
  options_mda_get_is_set (library g)
  = options_mda_get_is_set (library g0) || existsb is_mda_option fs.
Proof.
  rewrite <- foldl_orb. revert parsed.
  apply (apply_flags_fold (fun g => options_mda_get_is_set (library g))
           (fun acc f => acc || is_mda_option f)).
  intros f g1 g2 H. by_option f H; by rewrite ?orb_false_r, ?orb_true_r.
Qed.

Lemma parsed_dst_port :
  port_state (dst_port g) = foldl store_d (port_state (dst_port g0)) fs.
Proof.
  revert parsed. apply (apply_flags_fold (fun g => port_state (dst_port g)) store_d).
  intros f g1 g2 H. by_option f H.
  unfold opt_store_int_lim_en in *. by case_match; simplify_eq.
Qed.

Lemma parsed_src_port :
  port_state (src_port g) = foldl store_s (port_state (src_port g0)) fs.
Proof.
  revert parsed. apply (apply_flags_fold (fun g => port_state (src_port g)) store_s).
  intros f g1 g2 H. by_option f H.
  unfold opt_store_int_lim_en in *. by case_match; simplify_eq.
Qed.

Lemma opt_store_int_lim_en_ok (arg : Z) (data data' : list Z) :
  opt_store_int_lim_en arg data = Some data' -> port_ok data -> port_ok data'.
Proof.
  unfold opt_store_int_lim_en, port_ok. intros H (Hlo & Hhi & _).
  case_match; simplify_eq. simpl. lia.
Qed.

Lemma parsed_ports_ok :
  port_ok (dst_port g0) /\ port_ok (src_port g0) ->
  port_ok (dst_port g) /\ port_ok (src_port g).
Proof.
  revert parsed.
  apply (apply_flags_invariant (fun g => port_ok (dst_port g) /\ port_ok (src_port g))).
  intros f g1 g2 H [Hd Hs]. by_option f H; eauto using opt_store_int_lim_en_ok.
Qed.

End AfterParsing.

(** *** What [options_parse] leaves in the variables *)

Lemma foldl_store_d (fs : list flag) (start : Z * Z) (a : option Z) :
  foldl store_d (from_option (fun v => (v, 1)) start a) fs
  = from_option (fun v => (v, 1)) start (foldl pick_d a fs).
Proof.
  revert a. induction fs as [| f fs IH]; intros a; [done |]. simpl.
  rewrite <- IH. f_equal. by destruct f, a.
Qed.

Lemma foldl_store_s (fs : list flag) (start : Z * Z) (a : option Z) :
  foldl store_s (from_option (fun v => (v, 1)) start a) fs
  = from_option (fun v => (v, 1)) start (foldl pick_s a fs).
Proof.
  revert a. induction fs as [| f fs IH]; intros a; [done |]. simpl.
  rewrite <- IH. f_equal. by destruct f, a.
Qed.

Lemma options_parse_parsed_as (lib : library_options) (argv : cmdline)
    (g : globals) (n : Z) :
  options_parse lib argv = Some (g, n) ->
  parsed_as argv g /\ n = Z.of_nat (length (arguments argv)).
Proof.
  unfold options_parse. intros H. simplify_option_eq.
  rename Heqo into Hfs. split; [| done].
  destruct (parsed_ports_ok _ _ _ Hfs) as [[_ [_ Hd]] [_ [_ Hs]]];
    [by unfold port_ok, UINT16_MAX |].
  split.
  - apply (parsed_algorithm _ _ _ Hfs).
  - apply (parsed_protocol _ _ _ Hfs).
  - apply (parsed_is_udp _ _ _ Hfs).
  - apply (parsed_is_icmp _ _ _ Hfs).
  - apply (parsed_mda_is_set _ _ _ Hfs).
  - rewrite (parsed_dst_port _ _ _ Hfs). apply (foldl_store_d _ (33457, 0) None).
  - rewrite (parsed_src_port _ _ _ Hfs). apply (foldl_store_s _ (33456, 1) None).
  - done.
  - done.
Qed.

(** *** Runs of [main] *)

(** C3: the command line [-I -U example.test], on a host where every
    library call succeeds, is accepted: no error is reported, the loop is
    created and run, and the exit code is [EXIT_SUCCESS]. *)
Theorem icmp_and_udp_both_accepted :
  given_I (Samples.command [opt_I; opt_U]) = true
  /\ given_U (Samples.command [opt_I; opt_U]) = true
  /\ exit_code (main Samples.friendly (Samples.command [opt_I; opt_U]))
     = Some EXIT_SUCCESS
  /\ reports_error (main Samples.friendly (Samples.command [opt_I; opt_U])) = false
  /\ creates_loop (main Samples.friendly (Samples.command [opt_I; opt_U])) = true
  /\ sends_probes (main Samples.friendly (Samples.command [opt_I; opt_U])) = true.
Proof. repeat split; reflexivity. Qed.

Ltac unfold_run :=
  unfold bind, emit, goto, ret, exited, set_dst_ip_num; simpl.

(** C5: an MDA-family option together with a selected algorithm other
    than mda ends the run with an error message and a non-zero exit code,
    before the loop is created and so before any probe is sent. *)
Theorem mda_option_requires_mda (env : environment) (argv : cmdline) :
  given_mda_option argv = true ->
  selected_algorithm argv <> "mda" ->
  exit_code (main env argv) = Some EXIT_FAILURE
  /\ EXIT_FAILURE <> 0
  /\ reports_error (main env argv) = true
  /\ creates_loop (main env argv) = false
  /\ sends_probes (main env argv) = false.
Proof.
  intros Hmda Halg. unfold main, main_body, parse_command_line. unfold_run.
  destruct (options_create env); simpl; [| done].
  destruct (options_parse (defaults env) argv) as [[g n] |] eqn:Hparse; simpl; [| done].
  apply options_parse_parsed_as in Hparse as [Hg _].
  destruct (decide (n = 1)); simpl; [| done].
  rewrite (pa_mda _ _ Hg), Hmda, (pa_algorithm _ _ Hg).
  destruct (String.eqb_spec (selected_algorithm argv) "mda") as [| _]; [done |].
  simpl. unfold leave; simpl. by destruct (decide (errno env = 0)).
Qed.

(** The clean-up statements touch no probe field. *)
Lemma prepares_probe_leave (l : label) (num : option string) (e c : Z) :
  prepares_probe (leave l num e c) = false.
Proof.
  unfold leave. by destruct l, num, (decide (e = 0)).
Qed.

Lemma probe_i16_from_leave (key : string) (l : label) (num : option string)
    (e c : Z) (acc : option Z) :
  probe_i16_from key (leave l num e c) acc = acc.
Proof.
  unfold leave. by destruct l, num, (decide (e = 0)).
Qed.

Lemma probe_i16_from_app (key : string) (tr1 tr2 : list effect) (acc : option Z) :
  probe_i16_from key (tr1 ++ tr2) acc
  = probe_i16_from key tr2 (probe_i16_from key tr1 acc).
Proof.
  revert acc. induction tr1 as [| e tr1 IH]; intros acc; [done |].
  destruct e; simpl; apply IH.
Qed.

Lemma probe_i16_writes_leave (key : string) (l : label) (num : option string)
    (e c : Z) :
  probe_i16_writes key (leave l num e c) = [].
Proof.
  unfold leave. by destruct l, num, (decide (e = 0)).
Qed.

Lemma probe_i16_writes_app (key : string) (tr1 tr2 : list effect) :
  probe_i16_writes key (tr1 ++ tr2)
  = probe_i16_writes key tr1 ++ probe_i16_writes key tr2.
Proof.
  induction tr1 as [| e tr1 IH]; [done |].
  destruct e; simpl; rewrite ?IH, ?app_assoc; done.
Qed.

(** Choosing the algorithm and running the loop writes no probe field
    and leaves [dst_ip_num] alone. *)
Lemma run_algorithm_quiet (env : environment) (g : globals)
    (algorithm_name dst_ip num : string) (addr : address_t)
    (st st' : locals) (r : unit + stop) :
  run_algorithm env g algorithm_name dst_ip num addr st = (r, st') ->
  exists ext,
    trace st' = trace st ++ ext
    /\ forall key acc, probe_i16_from key ext acc = acc.
Proof.
  unfold run_algorithm, choose_algorithm. unfold_run.
  destruct (String.eqb algorithm_name "paris-traceroute"); simpl;
    [| destruct (String.eqb algorithm_name "mda" || _); simpl].
  all: destruct (pt_loop_create env); simpl.
  all: try (destruct (pt_algorithm_add env); simpl).
  all: try (destruct (decide (pt_loop env < 0)); simpl).
  all: intros [= <- <-]; simpl; rewrite <- ?app_assoc; eexists; split;
    [reflexivity | reflexivity].
Qed.

Lemma run_algorithm_no_write (env : environment) (g : globals)
    (algorithm_name dst_ip num : string) (addr : address_t)
    (st st' : locals) (r : unit + stop) :
  run_algorithm env g algorithm_name dst_ip num addr st = (r, st') ->
  exists ext,
    trace st' = trace st ++ ext
    /\ (forall key acc, probe_i16_from key ext acc = acc)
    /\ (forall key, probe_i16_writes key ext = []).
Proof.
  unfold run_algorithm, choose_algorithm. unfold_run.
  destruct (String.eqb algorithm_name "paris-traceroute"); simpl;
    [| destruct (String.eqb algorithm_name "mda" || _); simpl].
  all: destruct (pt_loop_create env); simpl.
  all: try (destruct (pt_algorithm_add env); simpl).
  all: try (destruct (decide (pt_loop env < 0)); simpl).
  all: intros [= <- <-]; simpl; rewrite <- ?app_assoc; eexists; split;
    [reflexivity | split; reflexivity].
Qed.

Local Opaque leave run_algorithm.

Ltac close_run :=
  simpl; unfold probe_i16; simpl;
  rewrite ?prepares_probe_leave, ?probe_i16_from_leave; try done.

(** On a command line that does not ask for ICMP, the 16-bit fields
    [main] writes hold the parsed ports unchanged. *)
Lemma parsed_ports (argv : cmdline) (g : globals) :
  parsed_as argv g ->
  I16 "src_port" (nth 0 (src_port g) 0)
  = Field_i16 "src_port" (default 33456 (given_s argv))
  /\ I16 "dst_port" (nth 0 (dst_port g) 0)
     = Field_i16 "dst_port" (default 33457 (given_d argv))
  /\ nth 3 (dst_port g) 0 = match given_d argv with Some _ => 1 | None => 0 end
  /\ (forall v, given_d argv = Some v -> 0 <= v <= 65535).
Proof.
  intros Hg.
  pose proof (pa_dst_port _ _ Hg) as Hd. pose proof (pa_src_port _ _ Hg) as Hs.
  pose proof (pa_dst_range _ _ Hg) as Hdr. pose proof (pa_src_range _ _ Hg) as Hsr.
  unfold port_state, UINT16_MAX in *. unfold I16.
  rewrite !Z.mod_small by lia.
  destruct (given_d argv), (given_s argv); simpl in *; simplify_eq;
    repeat split; try congruence; intros; simplify_eq; lia.
Qed.

(** Whenever [main] gets as far as building the probe, for a command line
    with neither -I nor "-P icmp" (a UDP probe): [src_port] is the value
    given with -s, 33456 without -s; with -U and without -d, [dst_port]
    ends as 53; with "-d PORT", PORT is within 0..65535 and [dst_port]
    ends as PORT. *)
Lemma udp_probe_ports (env : environment) (argv : cmdline) :
  prepares_probe (main env argv) = true ->
  given_I argv = false ->
  selected_protocol argv <> "icmp" ->
  probe_i16 "src_port" (main env argv) = Some (default 33456 (given_s argv))
  /\ (given_U argv = true -> given_d argv = None ->
      probe_i16 "dst_port" (main env argv) = Some 53)
  /\ (forall v, given_d argv = Some v ->
        0 <= v <= 65535 /\ probe_i16 "dst_port" (main env argv) = Some v).
Proof.
  intros Hprep HI HP. revert Hprep.
  unfold main, main_body, parse_command_line. unfold_run.
  destruct (options_create env); close_run.
  destruct (options_parse (defaults env) argv) as [[g n] |] eqn:Hparse; close_run.
  apply options_parse_parsed_as in Hparse as [Hg _].
  destruct (decide (n = 1)); close_run.
  assert (Hicmp : is_icmp g || (nth 0 (protocol_names g) "" =? "icmp")%string = false).
  { rewrite (pa_is_icmp _ _ Hg), HI, (pa_protocol _ _ Hg). simpl.
    by apply String.eqb_neq. }
  destruct (parsed_ports argv g Hg) as (Hsrc & Hdst & Hen & Hrange).
  pose proof (pa_is_udp _ _ Hg) as Hudp.
  destruct (options_mda_get_is_set (library g));
    [destruct (String.eqb (nth 0 (algorithm_names g) "") "mda") |]; close_run.
  all: unfold choose_family.
  all: destruct (is_ipv4 g), (is_ipv6 g); close_run.
  all: try (destruct (address_guess_family env _) as [family |]; close_run).
  all: repeat match goal with
       | |- context [decide (?a = AF_INET)] => destruct (decide (a = AF_INET)); simpl
       | |- context [decide (?a = AF_INET6)] => destruct (decide (a = AF_INET6)); simpl
       end; close_run.
  all: match goal with
       | |- context [address_from_string ?e ?f ?s] =>
           destruct (address_from_string e f s) as [addr |]; close_run
       end.
  all: destruct (address_to_string env addr) as [num |]; close_run.
  all: destruct (probe_create env); close_run.
  all: unfold prepare_probe; rewrite Hicmp, Hsrc, Hdst, Hen, Hudp.
  all: destruct (given_d argv) as [d |]; [| destruct (given_U argv)].
  all: rewrite ?andb_false_r; unfold_run.
  all: try match goal with
       | |- context [String.eqb ?a "udp"] => destruct (String.eqb a "udp"); simpl
       end.
  all: match goal with
       | |- context [run_algorithm ?e ?a ?b ?c ?d ?f ?st] =>
           destruct (run_algorithm e a b c d f st) as [r st'] eqn:Hrun;
           apply run_algorithm_quiet in Hrun as (ext & Htrace & Hquiet)
       end.
  all: intros _; rewrite Htrace; destruct r as [| [l |]]; unfold probe_i16.
  all: rewrite ?probe_i16_from_app, ?probe_i16_from_leave, ?Hquiet; simpl.
  all: split; [done |]; split; [intros; by simplify_eq |].
  all: intros v Hv; try discriminate Hv.
  all: injection Hv as <-; split; [by apply Hrange | done].
Qed.

(** C4: on a command line with none of -U, -d and -I that leaves the
    protocol at "udp", its default, every run of [main] that builds the
    probe writes the default destination port 33457 into it and then
    overwrites it with 53: the test made for -U, [is_udp && !dst_port[3]],
    also holds without -U, because [is_udp] has been or-ed with
    [protocol_names[0] == "udp"].  The probe never keeps the default
    33457. *)
Theorem default_dst_port_overwritten (env : environment) (argv : cmdline) :
  prepares_probe (main env argv) = true ->
  given_U argv = false ->
  given_d argv = None ->
  given_I argv = false ->
  selected_protocol argv = "udp" ->
  probe_i16_writes "dst_port" (main env argv) = [33457; 53]
  /\ probe_i16 "dst_port" (main env argv) = Some 53.
Proof.
  intros Hprep HU Hd HI HP. revert Hprep.
  unfold main, main_body, parse_command_line. unfold_run.
  destruct (options_create env); close_run.
  destruct (options_parse (defaults env) argv) as [[g n] |] eqn:Hparse; close_run.
  apply options_parse_parsed_as in Hparse as [Hg _].
  destruct (decide (n = 1)); close_run.
  assert (Hicmp : is_icmp g || (nth 0 (protocol_names g) "" =? "icmp")%string = false).
  { by rewrite (pa_is_icmp _ _ Hg), HI, (pa_protocol _ _ Hg), HP. }
  assert (Hudp : is_udp g || (nth 0 (protocol_names g) "" =? "udp")%string = true).
  { by rewrite (pa_is_udp _ _ Hg), HU, (pa_protocol _ _ Hg), HP. }
  destruct (parsed_ports argv g Hg) as (_ & Hdst & Hen & _).
  rewrite Hd in Hdst, Hen. simpl in Hdst.
  destruct (options_mda_get_is_set (library g));
    [destruct (String.eqb (nth 0 (algorithm_names g) "") "mda") |]; close_run.
  all: unfold choose_family.
  all: destruct (is_ipv4 g), (is_ipv6 g); close_run.
  all: try (destruct (address_guess_family env _) as [family |]; close_run).
  all: repeat match goal with
       | |- context [decide (?a = AF_INET)] => destruct (decide (a = AF_INET)); simpl
       | |- context [decide (?a = AF_INET6)] => destruct (decide (a = AF_INET6)); simpl
       end; close_run.
  all: match goal with
       | |- context [address_from_string ?e ?f ?s] =>
           destruct (address_from_string e f s) as [addr |]; close_run
       end.
  all: destruct (address_to_string env addr) as [num |]; close_run.
  all: destruct (probe_create env); close_run.
  all: unfold prepare_probe; rewrite Hicmp, Hudp, Hdst, Hen.
  all: unfold_run.
  all: match goal with
       | |- context [run_algorithm ?e ?a ?b ?c ?d ?f ?st] =>
           destruct (run_algorithm e a b c d f st) as [r st'] eqn:Hrun;
           apply run_algorithm_no_write in Hrun as (ext & Htrace & Hquiet & Hnone)
       end.
  all: intros _; rewrite Htrace; destruct r as [| [l |]]; unfold probe_i16.
  all: rewrite ?probe_i16_from_app, ?probe_i16_writes_app, ?probe_i16_from_leave,
         ?probe_i16_writes_leave, ?Hquiet, ?Hnone; simpl.
  all: rewrite ?Hnone; done.
Qed.

Local Transparent leave run_algorithm.

Lemma default_dst_port_overwritten_witness :
  probe_i16_writes "dst_port" (main Samples.friendly (Samples.command [])) = [33457; 53]
  /\ probe_i16 "dst_port" (main Samples.friendly (Samples.command [])) = Some 53.
Proof.
  apply (default_dst_port_overwritten Samples.friendly (Samples.command []));
    reflexivity.
Defined.

Lemma mda_option_requires_mda_witness :
  exit_code (main Samples.friendly (Samples.command [opt_mda_max_branch 8]))
  = Some EXIT_FAILURE
  /\ EXIT_FAILURE <> 0
  /\ reports_error (main Samples.friendly (Samples.command [opt_mda_max_branch 8])) = true
  /\ creates_loop (main Samples.friendly (Samples.command [opt_mda_max_branch 8])) = false
  /\ sends_probes (main Samples.friendly (Samples.command [opt_mda_max_branch 8])) = false.
Proof.
  apply (mda_option_requires_mda Samples.friendly (Samples.command [opt_mda_max_branch 8]));
    [reflexivity | discriminate].
Defined.

End ParisTracerouteProps.

(** ** More properties of paris-traceroute.c *)

Module MainPathsProps.
Import Stdio ParisTraceroute Requested Parsed MainPaths RequestedMore.
Import ParisTracerouteProps.

(** *** The stages of [main] *)

Lemma prepare_probe_supported (g : globals) (family : Z) (ip_protocol_name : string)
    (dst_addr_ : address_t) (st : locals) :
  family = AF_INET \/ family = AF_INET6 ->
  prepare_probe g family ip_protocol_name dst_addr_ st
  = (inl tt, {| trace := trace st ++ probe_setup g family ip_protocol_name dst_addr_;
                dst_ip_num := dst_ip_num st |}).
Proof.
  intros Hfam. unfold prepare_probe, probe_setup.
  unfold bind, emit, goto, ret. destruct st as [tr num].
  destruct (is_icmp g || _), ((is_udp g || _) && _); simpl.
  all: destruct Hfam as [-> | ->]; simpl.
  all: rewrite <- ?app_assoc; reflexivity.
Qed.

Lemma run_algorithm_run (env : environment) (g : globals)
    (algorithm_name dst_ip dst_ip_num_ : string) (dst_addr_ : address_t) (st : locals) :
  run_algorithm env g algorithm_name dst_ip dst_ip_num_ dst_addr_ st
  = ((algorithm_run env g algorithm_name dst_ip dst_ip_num_ dst_addr_).1,
     {| trace := trace st
                 ++ (algorithm_run env g algorithm_name dst_ip dst_ip_num_ dst_addr_).2;
        dst_ip_num := dst_ip_num st |}).
Proof.
  unfold run_algorithm, algorithm_run, choose_algorithm, chosen_algorithm, loop_setup.
  unfold bind, emit, goto, ret. destruct st as [tr num].
  destruct (String.eqb algorithm_name "paris-traceroute"); simpl;
    [| destruct (String.eqb algorithm_name "mda" || _); simpl].
  all: destruct (pt_loop_create env); simpl.
  all: try (destruct (pt_algorithm_add env); simpl).
  all: try (destruct (decide (pt_loop env < 0)); simpl).
  all: rewrite <- ?app_assoc; reflexivity.
Qed.

Lemma choose_family_choice (env : environment) (g : globals) (dst_ip : string)
    (st : locals) :
  choose_family env g dst_ip st
  = match family_choice env g dst_ip with
    | inl family => (inl family, st)
    | inr (l, msg) =>
        (inr (Goto l), {| trace := trace st ++ msg; dst_ip_num := dst_ip_num st |})
    end.
Proof.
  unfold choose_family, family_choice. unfold bind, emit, goto, ret.
  destruct st as [tr num].
  destruct (is_ipv4 g), (is_ipv6 g); simpl; try reflexivity.
  - destruct (address_guess_family env dst_ip); simpl; [done |].
    by rewrite app_nil_r.
Qed.

(** Where [run_algorithm] can end, with what it has done by then. *)
Lemma algorithm_run_cases (env : environment) (g : globals)
    (algorithm_name dst_ip num : string) (addr : address_t)
    (r : unit + stop) (tr : list effect) :
  algorithm_run env g algorithm_name dst_ip num addr = (r, tr) ->
  (chosen_algorithm g algorithm_name addr = None
   /\ r = inr (Goto ERR_UNKNOWN_ALGORITHM)
   /\ tr = [Perror "E: Unknown algorithm"])
  \/ exists chosen,
       chosen_algorithm g algorithm_name addr = Some chosen
       /\ ((pt_loop_create env = false
            /\ r = inr (Goto ERR_LOOP_CREATE)
            /\ tr = [Perror "E: Cannot create libparistraceroute loop"])
           \/ (pt_loop_create env = true /\ pt_algorithm_add env = false
               /\ r = inr (Goto ERR_INSTANCE)
               /\ tr = loop_setup env g dst_ip num chosen
                       ++ [Perror "E: Cannot add the chosen algorithm"])
           \/ (pt_loop_create env = true /\ pt_algorithm_add env = true
               /\ pt_loop env < 0
               /\ r = inr (Goto ERR_PT_LOOP)
               /\ tr = loop_setup env g dst_ip num chosen
                       ++ [Pt_algorithm_add chosen.1 chosen.2; Pt_loop;
                           Perror "E: Main loop interrupted"])
           \/ (pt_loop_create env = true /\ pt_algorithm_add env = true
               /\ 0 <= pt_loop env
               /\ r = inl tt
               /\ tr = loop_setup env g dst_ip num chosen
                       ++ [Pt_algorithm_add chosen.1 chosen.2; Pt_loop])).
Proof.
  unfold algorithm_run.
  destruct (chosen_algorithm g algorithm_name addr) as [chosen |];
    [| intros [= <- <-]; by left].
  intros H. right. exists chosen. split; [done |].
  destruct (pt_loop_create env); [| injection H as <- <-; by left].
  destruct (pt_algorithm_add env); [| injection H as <- <-; right; by left].
  destruct (decide (pt_loop env < 0)); injection H as <- <-.
  - right; right; by left.
  - right; right; right. repeat split; try done. lia.
Qed.

(** How [choose_family] fails, and how it succeeds. *)
Lemma family_choice_inr (env : environment) (g : globals) (dst_ip : string)
    (l : label) (msg : list effect) :
  family_choice env g dst_ip = inr (l, msg) ->
  (is_ipv4 g = true /\ is_ipv6 g = true
   /\ l = ERR_IP_VERSIONS_CONFLICT
   /\ msg = [Fprintf stderr (String.append "Can not set both ip versions" LF) []])
  \/ (is_ipv4 g = false /\ is_ipv6 g = false
      /\ address_guess_family env dst_ip = None
      /\ l = ERR_ADDRESS_GUESS_FAMILY /\ msg = []).
Proof.
  unfold family_choice. destruct (is_ipv4 g), (is_ipv6 g); simpl; try done.
  - intros [= <- <-]. by left.
  - destruct (address_guess_family env dst_ip); [done |]. intros [= <- <-]. by right.
Qed.

Lemma family_choice_inl (env : environment) (g : globals) (dst_ip : string) (family : Z) :
  family_choice env g dst_ip = inl family ->
  (is_ipv4 g = true /\ is_ipv6 g = false /\ family = AF_INET)
  \/ (is_ipv4 g = false /\ is_ipv6 g = true /\ family = AF_INET6)
  \/ (is_ipv4 g = false /\ is_ipv6 g = false
      /\ address_guess_family env dst_ip = Some family).
Proof.
  unfold family_choice. destruct (is_ipv4 g), (is_ipv6 g); simpl; try done.
  - intros [= <-]. by left.
  - intros [= <-]. right; by left.
  - destruct (address_guess_family env dst_ip); [| done]. intros [= <-].
    right; by right.
Qed.

Lemma family_choice_forced (guess : string -> option Z) (env : environment)
    (g : globals) (dst_ip : string) :
  is_ipv4 g = negb (is_ipv6 g) ->
  family_choice (with_guess guess env) g dst_ip = family_choice env g dst_ip.
Proof.
  unfold family_choice. by destruct (is_ipv4 g), (is_ipv6 g).
Qed.

(** The algorithm name read after parsing is one of the two names of
    [algorithm_names], so [choose_algorithm] always finds it. *)
Lemma opt_store_choice_two (a x y : string) (names : list string) :
  opt_store_choice a [x; y] = Some names -> names = [x; y] \/ names = [y; x].
Proof.
  unfold opt_store_choice. simpl.
  destruct (String.eqb a x); [intros [= <-]; by left |].
  destruct (String.eqb a y); [intros [= <-]; by right | done].
Qed.

Lemma parsed_algorithm_names (fs : list flag) (g0 g : globals) :
  apply_flags fs g0 = Some g ->
  algorithm_names g0 = ["paris-traceroute"; "mda"] ->
  algorithm_names g = ["paris-traceroute"; "mda"]
  \/ algorithm_names g = ["mda"; "paris-traceroute"].
Proof.
  intros Hfs H0.
  refine (apply_flags_invariant
            (fun g => algorithm_names g = ["paris-traceroute"; "mda"]
                      \/ algorithm_names g = ["mda"; "paris-traceroute"])
            _ fs g0 g Hfs _); [| by left].
  intros f g1 g2 H Hg1. by_option f H; try done.
  match goal with
  | Hc : opt_store_choice _ _ = Some _ |- _ =>
      destruct Hg1 as [Hn | Hn]; rewrite Hn in Hc;
      apply opt_store_choice_two in Hc; tauto
  end.
Qed.

Lemma parsed_is_ipv4 (fs : list flag) (g0 g : globals) :
  apply_flags fs g0 = Some g -> is_ipv4 g = is_ipv4 g0 || existsb is_opt_4 fs.
Proof.
  rewrite <- foldl_orb.
  apply (apply_flags_fold is_ipv4 (fun acc f => acc || is_opt_4 f)).
  intros f g1 g2 H. by_option f H; by rewrite ?orb_false_r, ?orb_true_r.
Qed.

Lemma parsed_is_ipv6 (fs : list flag) (g0 g : globals) :
  apply_flags fs g0 = Some g -> is_ipv6 g = is_ipv6 g0 || existsb is_opt_6 fs.
Proof.
  rewrite <- foldl_orb.
  apply (apply_flags_fold is_ipv6 (fun acc f => acc || is_opt_6 f)).
  intros f g1 g2 H. by_option f H; by rewrite ?orb_false_r, ?orb_true_r.
Qed.

Lemma options_parse_more (lib : library_options) (argv : cmdline) (g : globals) (n : Z) :
  options_parse lib argv = Some (g, n) ->
  is_ipv4 g = given_4 argv
  /\ is_ipv6 g = given_6 argv
  /\ (nth 0 (algorithm_names g) "" = "paris-traceroute"
      \/ nth 0 (algorithm_names g) "" = "mda").
Proof.
  unfold options_parse. intros H. simplify_option_eq. rename Heqo into Hfs.
  split; [apply (parsed_is_ipv4 _ _ _ Hfs) |].
  split; [apply (parsed_is_ipv6 _ _ _ Hfs) |].
  destruct (parsed_algorithm_names _ _ _ Hfs eq_refl) as [-> | ->]; auto.
Qed.

Lemma chosen_algorithm_known (g : globals) (addr : address_t) :
  nth 0 (algorithm_names g) "" = "paris-traceroute"
  \/ nth 0 (algorithm_names g) "" = "mda" ->
  exists chosen,
    chosen_algorithm g (nth 0 (algorithm_names g) "") addr = Some chosen
    /\ ((nth 0 (algorithm_names g) "" = "paris-traceroute"
         /\ chosen.1 = "traceroute" /\ exists t, chosen.2 = Traceroute_options t)
        \/ (nth 0 (algorithm_names g) "" = "mda"
            /\ chosen.1 = "mda" /\ exists m, chosen.2 = Mda_options m)).
Proof.
  unfold chosen_algorithm. intros [-> | ->]; simpl; eexists; split; try reflexivity.
  - left. simpl. eauto.
  - right. simpl. eauto.
Qed.

(** *** Observations on the clean-up statements and on the probe set-up *)

Lemma exit_code_leave (l : label) (num : option string) (e c : Z) :
  exit_code (leave l num e c) = Some c.
Proof. unfold leave. by destruct l, num, (decide (e = 0)). Qed.

Lemma existsb_leave (p : effect -> bool) (l : label) (num : option string) (e c : Z) :
  existsb p (leave l num e c)
  = (p Probe_free && bool_decide (depth l <= 0)%nat)
    || (p Pt_loop_free && bool_decide (depth l <= 1)%nat)
    || (p Free_dst_ip_num && bool_decide (depth l <= 2)%nat
        && match num with Some _ => true | None => false end)
    || (p (Perror_gai_strerror e) && bool_decide (depth l <= 3)%nat
        && bool_decide (e <> 0))
    || p (Exit c).
Proof.
  unfold leave.
  destruct l, num, (decide (e = 0)); simpl;
    rewrite ?bool_decide_eq_true_2, ?bool_decide_eq_false_2 by (try lia; tauto);
    simpl; destruct (p Probe_free), (p Pt_loop_free), (p Free_dst_ip_num),
      (p (Perror_gai_strerror e)), (p (Exit c)); reflexivity.
Qed.

Lemma registered_leave (l : label) (num : option string) (e c : Z) :
  registered (leave l num e c) = None.
Proof.
  unfold leave. by destruct l, num, (decide (e = 0)).
Qed.

Lemma probe_protocols_leave (l : label) (num : option string) (e c : Z) :
  probe_protocols (leave l num e c) = None.
Proof. unfold leave. by destruct l, num, (decide (e = 0)). Qed.

Lemma exit_code_app (tr1 tr2 : list effect) :
  exit_code (tr1 ++ tr2)
  = match exit_code tr1 with Some c => Some c | None => exit_code tr2 end.
Proof.
  induction tr1 as [| e tr1 IH]; [done |]. destruct e; simpl; try apply IH.
  reflexivity.
Qed.

Lemma registered_app (tr1 tr2 : list effect) :
  registered (tr1 ++ tr2)
  = match registered tr1 with Some c => Some c | None => registered tr2 end.
Proof.
  induction tr1 as [| e tr1 IH]; [done |]. destruct e; simpl; try apply IH.
  reflexivity.
Qed.

Lemma probe_setup_writes (g : globals) (family : Z) (ipn : string) (addr : address_t) :
  forallb is_probe_write (probe_setup g family ipn addr) = true.
Proof.
  unfold probe_setup. by destruct (is_icmp g || _), ((is_udp g || _) && _).
Qed.

Lemma existsb_probe_writes (p : effect -> bool) (tr : list effect) :
  forallb is_probe_write tr = true ->
  (forall e, is_probe_write e = true -> p e = false) ->
  existsb p tr = false.
Proof.
  intros Htr Hp. induction tr as [| e tr IH]; [done |]. simpl in *.
  apply andb_true_iff in Htr as [He Htr]. by rewrite (Hp e He), IH.
Qed.

Lemma exit_code_probe_writes (tr : list effect) :
  forallb is_probe_write tr = true -> exit_code tr = None.
Proof.
  induction tr as [| e tr IH]; [done |]. simpl. intros [He Htr]%andb_true_iff.
  destruct e; try discriminate; by apply IH.
Qed.

Lemma registered_probe_writes (tr : list effect) :
  forallb is_probe_write tr = true -> registered tr = None.
Proof.
  induction tr as [| e tr IH]; [done |]. simpl. intros [He Htr]%andb_true_iff.
  destruct e; try discriminate; by apply IH.
Qed.

(** *** The decision tree *)

Local Opaque probe_setup algorithm_run leave family_choice.

(** [main] is the decision tree [main_paths]. *)
Lemma main_paths_eq (env : environment) (argv : cmdline) :
  main env argv = main_paths env argv.
Proof.
  unfold main, main_paths, main_body, parse_command_line, finish.
  unfold bind, emit, goto, ret, exited, set_dst_ip_num; simpl.
  destruct (options_create env); simpl; [| done].
  destruct (options_parse (defaults env) argv) as [[g n] |]; simpl; [| done].
  destruct (decide (n = 1)); simpl; [| done].
  destruct (options_mda_get_is_set (library g)); simpl;
    [destruct (String.eqb (nth 0 (algorithm_names g) "") "mda"); simpl; [| done] |].
  all: rewrite choose_family_choice.
  all: destruct (family_choice env g _) as [family | [l msg]]; simpl; [| done].
  all: destruct (decide (family = AF_INET)) as [-> | Hne4]; simpl;
    [| destruct (decide (family = AF_INET6)) as [-> | Hne6]; simpl].
  all: repeat (case_decide; simpl; try (exfalso; tauto); try done).
  all: destruct (address_from_string env _ _) as [addr |]; simpl; [| done].
  all: destruct (address_to_string env addr) as [num |]; simpl; [| done].
  all: destruct (probe_create env); simpl; [| done].
  all: rewrite prepare_probe_supported by auto; simpl.
  all: rewrite run_algorithm_run; simpl.
  all: destruct (algorithm_run env g _ _ num addr) as [[[] | [l |]] tr]; simpl.
  all: rewrite <- ?app_assoc; reflexivity.
Qed.

(** Case analysis on the path [main] takes.  The goals come in program
    order: options not created, option rejected, wrong number of
    arguments, MDA option without mda, no family, family not supported,
    bad address, no address text, no probe, and the run of the
    algorithm. *)
Ltac walk_main :=
  rewrite ?main_paths_eq; unfold main_paths, finish;
  match goal with
  | |- context [options_create ?e] => destruct (options_create e) eqn:Hcreate
  end;
  [match goal with
   | |- context [options_parse ?d ?a] =>
       destruct (options_parse d a) as [[g n] |] eqn:Hparse
   end;
   [match goal with
    | |- context [decide (?m = 1)] => destruct (decide (m = 1)) as [-> | Hn]
    end;
    [match goal with
     | |- context [if ?b && ?c then _ else _] => destruct (b && c) eqn:Hmda
     end;
     [| match goal with
        | |- context [family_choice ?e ?g ?d] =>
            destruct (family_choice e g d) as [family | [l msg]] eqn:Hfam
        end;
        [match goal with
         | |- context [decide (?a \/ ?b)] => destruct (decide (a \/ b)) as [Hsup | Hsup]
         end;
         [match goal with
          | |- context [address_from_string ?e ?f ?d] =>
              destruct (address_from_string e f d) as [addr |] eqn:Haddr
          end;
          [match goal with
           | |- context [address_to_string ?e ?a] =>
               destruct (address_to_string e a) as [num |] eqn:Hnum
           end;
           [match goal with
            | |- context [probe_create ?e] => destruct (probe_create e) eqn:Hprobe
            end;
            [match goal with
             | |- context [algorithm_run ?e ?g ?a ?d ?n ?x] =>
                 destruct (algorithm_run e g a d n x) as [r tr] eqn:Hrun
             end | ] | ] | ] | ] | ] ] | ] | ] | ].

Ltac run_cases :=
  try match goal with
      | Hfam : family_choice _ _ _ = inr _ |- _ =>
          pose proof (family_choice_inr _ _ _ _ _ Hfam)
            as [(Hv4 & Hv6 & -> & ->) | (Hv4 & Hv6 & Hguess & -> & ->)]
      end;
  try match goal with
      | Hrun : algorithm_run _ _ _ _ _ _ = _ |- _ =>
          apply algorithm_run_cases in Hrun
            as [(Hchosen & -> & ->)
               | (chosen & Hchosen
                  & [(Hloop & -> & ->)
                    | [(Hloop & Hadd & -> & ->)
                      | [(Hloop & Hadd & Hres & -> & ->)
                        | (Hloop & Hadd & Hres & -> & ->)]]])]
      end.

Ltac observe :=
  unfold sends_probes, creates_loop, reports_error, prepares_probe, loop_setup;
  simpl;
  repeat (progress
            (rewrite ?existsb_app, ?exit_code_app, ?existsb_leave, ?exit_code_leave,
               ?(exit_code_probe_writes _ (probe_setup_writes _ _ _ _)),
               ?(existsb_probe_writes _ (probe_setup _ _ _ _))
               by first [apply probe_setup_writes | by intros []];
             simpl)).

(** X8: [main] always leaves through [exit] with [EXIT_SUCCESS] or
    [EXIT_FAILURE], and with [EXIT_SUCCESS] exactly when the event loop
    was run and returned a non-negative value. *)
Theorem exit_success_iff_loop_completed (env : environment) (argv : cmdline) :
  (exit_code (main env argv) = Some EXIT_SUCCESS
   \/ exit_code (main env argv) = Some EXIT_FAILURE)
  /\ (exit_code (main env argv) = Some EXIT_SUCCESS
      <-> sends_probes (main env argv) = true /\ 0 <= pt_loop env).
Proof.
  walk_main; run_cases; observe.
  all: intuition (discriminate || lia).
Qed.

(** X9: with both -4 and -6 the run fails with an error message and no
    probe is created. *)
Theorem both_ip_versions_rejected (env : environment) (argv : cmdline) :
  given_4 argv = true ->
  given_6 argv = true ->
  exit_code (main env argv) = Some EXIT_FAILURE
  /\ reports_error (main env argv) = true
  /\ existsb is_probe_create (main env argv) = false.
Proof.
  intros H4 H6. walk_main; run_cases.
  all: try (pose proof (options_parse_more _ _ _ _ Hparse) as (Hp4 & Hp6 & _)).
  all: try (apply family_choice_inl in Hfam
              as [(? & ? & ?) | [(? & ? & ?) | (? & ? & ?)]]; congruence).
  all: try congruence.
  all: by observe.
Qed.

(** X13: "E: Unknown algorithm" is never printed, and "Internet family not
    supported" is only ever printed before the probe exists: the second
    family switch, after [probe_create], cannot fail. *)
Theorem unreachable_error_paths (env : environment) (argv : cmdline) :
  existsb (is_perror "E: Unknown algorithm") (main env argv) = false
  /\ (existsb is_family_not_supported (main env argv) = true ->
      existsb is_probe_create (main env argv) = false).
Proof.
  walk_main; run_cases.
  all: try (destruct (chosen_algorithm_known g addr) as (c & Hc & _);
            [by destruct (options_parse_more _ _ _ _ Hparse) as (_ & _ & ?) |];
            congruence).
  all: unfold family_not_supported; observe.
  all: by split.
Qed.

(** X14: [probe_free] is called exactly in the runs in which the loop was
    created; when [pt_loop_create] fails the probe is never freed. *)
Theorem probe_freed_iff_loop_created (env : environment) (argv : cmdline) :
  existsb is_probe_free (main env argv) = creates_loop (main env argv).
Proof.
  walk_main; run_cases.
  all: try (destruct (chosen_algorithm_known g addr) as (c & Hc & _);
            [by destruct (options_parse_more _ _ _ _ Hparse) as (_ & _ & ?) |];
            congruence).
  all: by observe.
Qed.

(** X15: [pt_loop_free] is called in the runs in which the loop was
    created, and also when [probe_create] failed, where no loop exists. *)
Theorem loop_freed_without_loop (env : environment) (argv : cmdline) :
  existsb is_pt_loop_free (main env argv)
  = creates_loop (main env argv)
    || existsb (is_perror "E: Cannot create probe skeleton") (main env argv).
Proof.
  walk_main; run_cases.
  all: try (destruct (chosen_algorithm_known g addr) as (c & Hc & _);
            [by destruct (options_parse_more _ _ _ _ Hparse) as (_ & _ & ?) |];
            congruence).
  all: by observe.
Qed.

Lemma registered_cases (env : environment) (argv : cmdline)
    (name_ : string) (options_ : algorithm_options) :
  registered (main env argv) = Some (name_, options_) ->
  (selected_algorithm argv = "paris-traceroute" /\ name_ = "traceroute"
   /\ exists t, options_ = Traceroute_options t)
  \/ (selected_algorithm argv = "mda" /\ name_ = "mda"
      /\ exists m, options_ = Mda_options m).
Proof.
  walk_main; run_cases.
  all: unfold loop_setup; simpl.
  all: repeat (progress
                 (rewrite ?registered_app, ?registered_leave,
                    ?(registered_probe_writes _ (probe_setup_writes _ _ _ _)); simpl)).
  all: try discriminate.
  all: intros [= <- <-].
  all: destruct (options_parse_parsed_as _ _ _ _ Hparse) as [Hg _].
  all: rewrite <- (pa_algorithm _ _ Hg).
  all: destruct (chosen_algorithm_known g addr) as (c & Hc & Hkind);
    [by destruct (options_parse_more _ _ _ _ Hparse) as (_ & _ & ?) |].
  all: rewrite Hc in Hchosen; injection Hchosen as <-; exact Hkind.
Qed.

(** X16: the instance added to the loop is named "traceroute", with
    traceroute options, when the selected algorithm is paris-traceroute,
    and "mda", with MDA options, when it is mda. *)
Theorem registered_algorithm (env : environment) (argv : cmdline)
    (name_ : string) (options_ : algorithm_options) :
  registered (main env argv) = Some (name_, options_) ->
  (selected_algorithm argv = "paris-traceroute" /\ name_ = "traceroute"
   /\ exists t, options_ = Traceroute_options t)
  \/ (selected_algorithm argv = "mda" /\ name_ = "mda"
      /\ exists m, options_ = Mda_options m).
Proof. apply registered_cases. Qed.

Local Transparent probe_setup.

(** X17: the probe is given the protocols ipv4 or ipv6, and as second
    protocol icmpv4, respectively icmpv6, when ICMP is asked for (-I or
    "-P icmp"); otherwise the second name is the unassigned local
    [protocol_name]. *)
Theorem probe_protocol_names (env : environment) (argv : cmdline) :
  prepares_probe (main env argv) = true ->
  probe_protocols (main env argv)
  = Some ("ipv4",
          if given_I argv || String.eqb (selected_protocol argv) "icmp"
          then Some "icmpv4" else None)
  \/ probe_protocols (main env argv)
     = Some ("ipv6",
             if given_I argv || String.eqb (selected_protocol argv) "icmp"
             then Some "icmpv6" else None).
Proof.
  walk_main; run_cases.
  all: try (by observe).
  all: intros _; destruct (options_parse_parsed_as _ _ _ _ Hparse) as [Hg _].
  all: unfold probe_setup; simpl.
  all: rewrite (pa_is_icmp _ _ Hg), (pa_protocol _ _ Hg).
  all: destruct Hsup as [-> | ->]; simpl; auto.
Qed.

(** X18: when ICMP is asked for, [main] never writes [src_port] and never
    resizes the payload; [dst_port] is written, as 53, exactly when UDP is
    also in force (-U or the protocol name udp) and -d is absent, and a
    value given with -d is not written at all. *)
Theorem icmp_probe_ports (env : environment) (argv : cmdline) :
  prepares_probe (main env argv) = true ->
  given_I argv || String.eqb (selected_protocol argv) "icmp" = true ->
  probe_i16 "src_port" (main env argv) = None
  /\ existsb is_payload_resize (main env argv) = false
  /\ probe_i16 "dst_port" (main env argv)
     = if (given_U argv || String.eqb (selected_protocol argv) "udp")
          && match given_d argv with None => true | Some _ => false end
       then Some 53 else None.
Proof.
  walk_main; run_cases.
  all: try (by observe).
  all: intros _ Hicmp; destruct (options_parse_parsed_as _ _ _ _ Hparse) as [Hg _].
  all: destruct (parsed_ports argv g Hg) as (_ & _ & Hen & _).
  all: unfold probe_setup, probe_i16, loop_setup.
  all: rewrite (pa_is_icmp _ _ Hg), (pa_protocol _ _ Hg), (pa_is_udp _ _ Hg), Hicmp, Hen.
  all: destruct (given_d argv); simpl; rewrite ?andb_false_r, ?andb_true_r.
  all: try destruct (given_U argv || _); simpl.
  all: rewrite ?existsb_app, ?probe_i16_from_app, ?probe_i16_from_leave, ?existsb_leave.
  all: by simpl.
Qed.

Local Transparent algorithm_run leave family_choice.

(** X10: when the options are accepted but the number of remaining
    arguments is not one, [main] prints "destination required" with the
    base name of the program and exits with [EXIT_FAILURE]; it does nothing
    else, not even the [errno] report. *)
Theorem destination_required (env : environment) (argv : cmdline) :
  options_create env = true ->
  is_Some (options_parse (defaults env) argv) ->
  length (arguments argv) <> 1%nat ->
  main env argv
  = [Fprintf stderr (String.append "%s: destination required" LF)
       [arg_basename (program argv)];
     Exit EXIT_FAILURE].
Proof.
  intros Hcreate [[g n] Hparse] Hlen.
  rewrite main_paths_eq. unfold main_paths. rewrite Hcreate, Hparse.
  apply options_parse_parsed_as in Hparse as [_ ->].
  destruct (decide (Z.of_nat (length (arguments argv)) = 1)); [lia | reflexivity].
Qed.

(** X11: when no family is forced, the family of the target cannot be
    guessed and [errno] is 0, [main] exits with [EXIT_FAILURE] without
    printing anything. *)
Theorem silent_failure_without_family (env : environment) (argv : cmdline) (g : globals) :
  options_create env = true ->
  options_parse (defaults env) argv = Some (g, 1) ->
  given_mda_option argv = false ->
  given_4 argv = false ->
  given_6 argv = false ->
  address_guess_family env (List.last (arguments argv) (program argv)) = None ->
  errno env = 0 ->
  main env argv = [Exit EXIT_FAILURE].
Proof.
  intros Hcreate Hparse Hmda H4 H6 Hguess Herrno.
  rewrite main_paths_eq. unfold main_paths, finish. rewrite Hcreate, Hparse.
  destruct (options_parse_more _ _ _ _ Hparse) as (Hp4 & Hp6 & _).
  destruct (options_parse_parsed_as _ _ _ _ Hparse) as [Hg _].
  rewrite (pa_mda _ _ Hg), Hmda. simpl.
  unfold family_choice. rewrite Hp4, Hp6, H4, H6, Hguess. simpl.
  unfold leave. rewrite Herrno. reflexivity.
Qed.

(** X12: when exactly one of -4 and -6 is given, the answer of
    [address_guess_family] has no influence on the run. *)
Theorem forced_family_ignores_guess (guess : string -> option Z) (env : environment)
    (argv : cmdline) :
  given_4 argv = negb (given_6 argv) ->
  main (with_guess guess env) argv = main env argv.
Proof.
  intros Hforced. rewrite !main_paths_eq. unfold main_paths. simpl.
  destruct (options_create env); [| reflexivity].
  destruct (options_parse (defaults env) argv) as [[g n] |] eqn:Hparse; [| reflexivity].
  destruct (options_parse_more _ _ _ _ Hparse) as (Hp4 & Hp6 & _).
  rewrite family_choice_forced by congruence.
  reflexivity.
Qed.

(** *** The properties at sample command lines *)

Lemma both_ip_versions_rejected_witness :
  exit_code (main Samples.friendly (Samples.command [opt_4; opt_6])) = Some EXIT_FAILURE
  /\ reports_error (main Samples.friendly (Samples.command [opt_4; opt_6])) = true
  /\ existsb is_probe_create (main Samples.friendly (Samples.command [opt_4; opt_6]))
     = false.
Proof.
  apply (both_ip_versions_rejected Samples.friendly (Samples.command [opt_4; opt_6]));
    reflexivity.
Defined.

Lemma destination_required_witness :
  main Samples.friendly {| program := "paris-traceroute"; flags := [opt_U];
                           arguments := [] |}
  = [Fprintf stderr (String.append "%s: destination required" LF)
       [arg_basename "paris-traceroute"];
     Exit EXIT_FAILURE].
Proof.
  apply (destination_required Samples.friendly
           {| program := "paris-traceroute"; flags := [opt_U]; arguments := [] |});
    [reflexivity | eexists; reflexivity | simpl; lia].
Defined.

Lemma silent_failure_without_family_witness :
  main MoreSamples.no_guess (Samples.command [opt_U]) = [Exit EXIT_FAILURE].
Proof.
  apply (silent_failure_without_family MoreSamples.no_guess (Samples.command [opt_U])
           (set_is_udp true (initial_globals Samples.library_defaults)));
    reflexivity.
Defined.

Lemma forced_family_ignores_guess_witness :
  main (with_guess (fun _ => None) Samples.friendly) (Samples.command [opt_4])
  = main Samples.friendly (Samples.command [opt_4]).
Proof.
  apply (forced_family_ignores_guess (fun _ => None) Samples.friendly
           (Samples.command [opt_4])); reflexivity.
Defined.

Lemma registered_algorithm_witness :
  (selected_algorithm (Samples.command [opt_a "mda"]) = "paris-traceroute"
   /\ "mda" = "traceroute"
   /\ exists t, MoreSamples.mda_instance.(LoopHandler.options) = Traceroute_options t)
  \/ (selected_algorithm (Samples.command [opt_a "mda"]) = "mda" /\ "mda" = "mda"
      /\ exists m, MoreSamples.mda_instance.(LoopHandler.options) = Mda_options m).
Proof.
  apply (registered_algorithm Samples.friendly (Samples.command [opt_a "mda"]));
    reflexivity.
Defined.

Lemma probe_protocol_names_witness :
  probe_protocols (main Samples.friendly (Samples.command [opt_I]))
  = Some ("ipv4", Some "icmpv4")
  \/ probe_protocols (main Samples.friendly (Samples.command [opt_I]))
     = Some ("ipv6", Some "icmpv6").
Proof.
  apply (probe_protocol_names Samples.friendly (Samples.command [opt_I])); reflexivity.
Defined.

Lemma icmp_probe_ports_witness :
  probe_i16 "src_port" (main Samples.friendly (Samples.command [opt_I; opt_d 80])) = None
  /\ existsb is_payload_resize (main Samples.friendly (Samples.command [opt_I; opt_d 80]))
     = false
  /\ probe_i16 "dst_port" (main Samples.friendly (Samples.command [opt_I; opt_d 80]))
     = None.
Proof.
  apply (icmp_probe_ports Samples.friendly (Samples.command [opt_I; opt_d 80]));
    reflexivity.
Defined.

End MainPathsProps.

(** ** More properties of traceroute_enriched_data.c *)

Module EnrichedVectorsProps.
Import Stdio Memory EnrichedData EnrichedVectors.

#[local] Set Warnings "-clear-no-such-hyp".

(** *** Freeing a sequence of cells *)

Lemma free_Some (p : N) (h h' : gmap N object) :
  free p h = Some h' <-> (is_Some (h !! p) \/ p = NULL) /\ h' = delete p h.
Proof.
  unfold free. destruct (h !! p) eqn:Hp.
  - split; [intros [= <-]; eauto | intros [_ ->]; done].
  - rewrite (delete_id h p Hp). case_decide as Hnull.
    + split; [intros [= <-]; auto | intros [_ ->]; done].
    + split; [done | intros [[[? ?] | ?] _]; done].
Qed.

Lemma free_None (p : N) (h : gmap N object) :
  free p h = None <-> h !! p = None /\ p <> NULL.
Proof.
  unfold free. destruct (h !! p); [by split; [| intros [? _]] |].
  case_decide; [by split; [| intros [_ ?]] | done].
Qed.

(** A sequence of [free] succeeds exactly when its pointers other than
    [NULL] are allocated and pairwise distinct; the cells they designate
    are then gone and the others unchanged. *)
Lemma free_cells_Some (cells : list N) :
  forall h h' : gmap N object,
    free_cells cells h = Some h' <->
    NoDup (filter (fun c => c <> NULL) cells)
    /\ (forall c, c ∈ cells -> c <> NULL -> is_Some (h !! c))
    /\ (forall q, h' !! q = if decide (q ∈ cells) then None else h !! q).
Proof.
  induction cells as [| c cells IH]; intros h h'.
  - cbn [free_cells]. split.
    + intros [= <-]. split; [constructor |]. split; [intros c Hc; inversion Hc |].
      intros q. case_decide as Hq; [inversion Hq | done].
    + intros (_ & _ & Hq). f_equal. apply map_eq. intros q. rewrite Hq.
      case_decide as Hc; [inversion Hc | done].
  - cbn [free_cells]. destruct (free c h) as [h1 |] eqn:Hfree.
    + apply free_Some in Hfree as [Hc ->]. rewrite IH.
      assert (Hres : forall q,
                 (if decide (q ∈ cells) then None else delete c h !! q)
                 = if decide (q ∈ c :: cells) then None else h !! q).
      { intros q. rewrite (lookup_delete h c q).
        repeat case_decide; try done; subst;
          rewrite ?elem_of_cons in *; intuition congruence. }
      destruct (decide (c = NULL)) as [Hnull | Hnull].
      * rewrite filter_cons_False by tauto. split.
        -- intros (Hnd & Halloc & Hq). split; [done |]. split.
           ++ intros x [-> | Hx]%elem_of_cons Hxn; [done |].
              destruct (Halloc x Hx Hxn) as [o Ho].
              rewrite lookup_delete_ne in Ho by congruence. eauto.
           ++ intros q. by rewrite Hq, Hres.
        -- intros (Hnd & Halloc & Hq). split; [done |]. split.
           ++ intros x Hx Hxn. rewrite lookup_delete_ne by congruence.
              apply Halloc; [by right | done].
           ++ intros q. by rewrite Hq, Hres.
      * rewrite filter_cons_True by done. rewrite NoDup_cons, list_elem_of_filter.
        split.
        -- intros (Hnd & Halloc & Hq).
           assert (Hnotin : c ∉ cells).
           { intros Hin. destruct (Halloc c Hin Hnull) as [o Ho].
             by rewrite lookup_delete_eq in Ho. }
           split; [split; [tauto | done] |]. split.
           ++ intros x [-> | Hx]%elem_of_cons Hxn; [tauto |].
              destruct (Halloc x Hx Hxn) as [o Ho].
              rewrite lookup_delete_ne in Ho by (intros ->; done). eauto.
           ++ intros q. by rewrite Hq, Hres.
        -- intros ([Hnotin Hnd] & Halloc & Hq). split; [done |]. split.
           ++ intros x Hx Hxn. rewrite lookup_delete_ne by (intros ->; tauto).
              apply Halloc; [by right | done].
           ++ intros q. by rewrite Hq, Hres.
    + apply free_None in Hfree as [Hc Hnull]. split; [done |].
      intros (_ & Halloc & _).
      destruct (Halloc c) as [o Ho]; [by left | done | congruence].
Qed.

Lemma free_cells_snoc (cells : list N) (v : N) (h : gmap N object) :
  free_cells (cells ++ [v]) h
  = match free_cells cells h with Some h' => free v h' | None => None end.
Proof.
  revert h. induction cells as [| c cells IH]; intros h; simpl.
  - by destruct (free v h).
  - destruct (free c h); [apply IH | done].
Qed.

(** The heap a sequence of [free] leaves when it succeeds. *)
Lemma lookup_foldr_delete (cells : list N) (h : gmap N object) (q : N) :
  foldr delete h cells !! q = if decide (q ∈ cells) then None else h !! q.
Proof.
  induction cells as [| c l IH]; cbn [foldr].
  - case_decide as Hq; [inversion Hq | done].
  - rewrite (lookup_delete _ c q), IH.
    repeat case_decide; try done; exfalso; set_solver.
Qed.

Lemma free_cells_is_Some (cells : list N) (h : gmap N object) :
  is_Some (free_cells cells h) <->
  NoDup (filter (fun c => c <> NULL) cells)
  /\ (forall c, c ∈ cells -> c <> NULL -> is_Some (h !! c)).
Proof.
  split.
  - intros [h' (Hnd & Halloc & _)%free_cells_Some]. done.
  - intros [Hnd Halloc]. exists (foldr delete h cells).
    apply free_cells_Some. split; [done |]. split; [done |].
    intros q. apply lookup_foldr_delete.
Qed.

(** *** Pointers found at a sequence of indices *)

Lemma elem_of_hops_from (bound : N) (fuel : nat) :
  forall i x : N,
    x ∈ hops_from bound fuel i <-> (i <= x < bound /\ x < i + N.of_nat fuel)%N.
Proof.
  induction fuel as [| fuel IH]; intros i x; simpl.
  - split; [intros H; inversion H | lia].
  - destruct (N.ltb_spec i bound) as [Hlt | Hge].
    + rewrite elem_of_cons, IH. lia.
    + split; [intros H; inversion H | lia].
Qed.

Lemma NoDup_hops_from (bound : N) (fuel : nat) (i : N) :
  NoDup (hops_from bound fuel i).
Proof.
  revert i. induction fuel as [| fuel IH]; intros i; simpl; [constructor |].
  destruct (i <? bound)%N; [| constructor].
  constructor; [| apply IH]. rewrite elem_of_hops_from. lia.
Qed.

(** The pointers other than [NULL] found at a duplicate-free list of keys
    are pairwise distinct exactly when no two of these keys share one. *)
Lemma NoDup_filter_omap (f : N -> option N) (keys : list N) :
  NoDup keys ->
  NoDup (filter (fun c => c <> NULL) (omap f keys)) <->
  forall i j v,
    i ∈ keys -> j ∈ keys -> f i = Some v -> f j = Some v -> v <> NULL -> i = j.
Proof.
  induction keys as [| k keys IH]; intros Hnd; simpl.
  - split; [intros _ i j v Hi; inversion Hi | constructor].
  - apply NoDup_cons in Hnd as [Hk Hnd]. specialize (IH Hnd).
    assert (Hskip : (forall v, f k = Some v -> v = NULL) ->
              (forall i j v, i ∈ keys -> j ∈ keys ->
                             f i = Some v -> f j = Some v -> v <> NULL -> i = j)
              <-> (forall i j v, i ∈ k :: keys -> j ∈ k :: keys ->
                                 f i = Some v -> f j = Some v -> v <> NULL -> i = j)).
    { intros Hnull. split.
      - intros Hinj i j v Hi Hj Hiv Hjv Hv.
        apply elem_of_cons in Hi as [-> | Hi]; [by apply Hnull in Hiv |].
        apply elem_of_cons in Hj as [-> | Hj]; [by apply Hnull in Hjv |].
        by apply (Hinj i j v).
      - intros Hinj i j v Hi Hj. apply Hinj; by right. }
    destruct (f k) as [w |] eqn:Hw; [| rewrite IH; apply Hskip; done].
    destruct (decide (w = NULL)) as [Hnull | Hnull].
    + rewrite filter_cons_False by tauto. rewrite IH. apply Hskip. congruence.
    + rewrite filter_cons_True by done.
      rewrite NoDup_cons, IH, list_elem_of_filter, list_elem_of_omap. split.
      * intros [Hnotin Hinj] i j v Hi Hj Hiv Hjv Hv.
        apply elem_of_cons in Hi as [-> | Hi]; apply elem_of_cons in Hj as [-> | Hj].
        -- done.
        -- exfalso. apply Hnotin. split; [done |]. exists j. split; congruence.
        -- exfalso. apply Hnotin. split; [done |]. exists i. split; congruence.
        -- by apply (Hinj i j v).
      * intros Hinj. split.
        -- intros (_ & x & Hx & Hxw). assert (k = x) as -> by
             (apply (Hinj k x w); [by left | by right | done | done | done]). done.
        -- intros i j v Hi Hj. apply Hinj; by right.
Qed.

Lemma fmap_omap_Some (g : N -> N) (keys : list N) :
  g <$> keys = omap (fun i => Some (g i)) keys.
Proof. induction keys as [| k keys IH]; [done |]. cbn. by f_equal. Qed.

(** *** [vector_enriched_reply_free] as a sequence of [free] *)

Section Vector.

Variable vector_get_ith_element : list N -> N -> N.

Lemma free_elements_gone (vector : N) (fuel : nat) (i : N) (h : gmap N object) :
  h !! vector = None -> free_elements vector_get_ith_element fuel i vector h = None.
Proof. intros Hv. destruct fuel; simpl; by rewrite Hv. Qed.

(** The loop frees the pointers the accessor returns, in order, and has
    no defined result when one of them is the vector: the next test of
    the loop then reads a freed vector. *)
Lemma free_elements_cells (vector : N) (cells : list N) (fuel : nat) :
  forall (i : N) (h : gmap N object),
    h !! vector = Some (ObjVector cells) ->
    free_elements vector_get_ith_element fuel i vector h
    = if decide (vector ∈ vector_get_ith_element cells
                          <$> hops_from (num_cells cells) fuel i)
      then None
      else free_cells (vector_get_ith_element cells
                         <$> hops_from (num_cells cells) fuel i) h.
Proof.
  induction fuel as [| fuel IH]; intros i h Hv.
  - simpl. rewrite Hv. by destruct (i <? num_cells cells)%N.
  - simpl. rewrite Hv. destruct (i <? num_cells cells)%N; [| done].
    cbn [fmap list_fmap free_cells].
    destruct (free (vector_get_ith_element cells i) h) as [h1 |] eqn:Hfree.
    + apply free_Some in Hfree as [_ ->].
      destruct (decide (vector_get_ith_element cells i = vector)) as [Heq | Hne].
      * rewrite Heq, free_elements_gone by apply lookup_delete_eq.
        rewrite decide_True; [done | by left].
      * rewrite IH by (by rewrite lookup_delete_ne).
        repeat case_decide; try done; exfalso; set_solver.
    + by case_decide.
Qed.

Lemma elem_of_elements (cells : list N) (p : N) :
  p ∈ elements vector_get_ith_element cells <->
  exists i, (i < num_cells cells)%N /\ p = vector_get_ith_element cells i.
Proof.
  unfold elements. rewrite list_elem_of_fmap. unfold num_cells. split.
  - intros (i & -> & Hi%elem_of_hops_from). exists i. split; [lia | done].
  - intros (i & Hi & ->). exists i. split; [done |]. apply elem_of_hops_from. lia.
Qed.

Lemma NoDup_elements (cells : list N) :
  NoDup (filter (fun c => c <> NULL) (elements vector_get_ith_element cells)) <->
  forall i j,
    (i < num_cells cells)%N -> (j < num_cells cells)%N ->
    vector_get_ith_element cells i = vector_get_ith_element cells j ->
    vector_get_ith_element cells i <> NULL -> i = j.
Proof.
  unfold elements. rewrite (fmap_omap_Some (vector_get_ith_element cells)).
  rewrite NoDup_filter_omap by apply NoDup_hops_from.
  unfold num_cells. split.
  - intros H i j Hi Hj Heq Hnull.
    apply (H i j (vector_get_ith_element cells i)); try done;
      try (apply elem_of_hops_from; lia). by rewrite Heq.
  - intros H i j v Hi%elem_of_hops_from Hj%elem_of_hops_from [= <-] [= Heq] Hnull.
    apply H; try done; lia.
Qed.

(** X1: [vector_enriched_reply_free] has a defined result exactly when
    its argument is an allocated vector and the pointers that
    [vector_get_ith_element] returns for the indices below [num_cells]
    are none of them the vector and, the null pointers apart, allocated
    and pairwise distinct (anything else is a double or an invalid free).
    It then frees the cells these pointers designate and the vector, and
    leaves every other cell as it was. *)
Theorem vector_enriched_reply_free_Some (vector : N) (h h' : gmap N object) :
  vector_enriched_reply_free vector_get_ith_element vector h = Some h' <->
  exists cells,
    h !! vector = Some (ObjVector cells)
    /\ (forall i, (i < num_cells cells)%N -> vector_get_ith_element cells i <> vector)
    /\ (forall i j,
          (i < num_cells cells)%N -> (j < num_cells cells)%N ->
          vector_get_ith_element cells i = vector_get_ith_element cells j ->
          vector_get_ith_element cells i <> NULL -> i = j)
    /\ (forall i,
          (i < num_cells cells)%N -> vector_get_ith_element cells i <> NULL ->
          is_Some (h !! vector_get_ith_element cells i))
    /\ (forall q,
          (q = vector
           \/ exists i, (i < num_cells cells)%N /\ q = vector_get_ith_element cells i) ->
          h' !! q = None)
    /\ (forall q,
          q <> vector ->
          (forall i, (i < num_cells cells)%N -> q <> vector_get_ith_element cells i) ->
          h' !! q = h !! q).
Proof.
  unfold vector_enriched_reply_free.
  destruct (h !! vector) as [o |] eqn:Hv; [| split; [done | by intros (? & [=] & _)]].
  destruct o as [| | | cells]; try (split; [done | by intros (? & [=] & _)]).
  rewrite (free_elements_cells vector cells) by done.
  fold (elements vector_get_ith_element cells).
  destruct (decide (vector ∈ elements vector_get_ith_element cells)) as [Hin | Hnotin].
  { split; [done |]. intros (cells' & [= <-] & Hother & _).
    apply elem_of_elements in Hin as (i & Hi & Heq). by destruct (Hother i Hi). }
  rewrite <- free_cells_snoc, free_cells_Some, filter_app, NoDup_app.
  rewrite NoDup_elements. split.
  - intros ((Hnd & _ & _) & Halloc & Hres). exists cells. split; [done |].
    split; [intros i Hi Heq; apply Hnotin, elem_of_elements; eauto |].
    split; [done |]. split.
    { intros i Hi Hnull. apply Halloc; [| done].
      apply elem_of_app; left. apply elem_of_elements. eauto. }
    split.
    + intros q Hq. rewrite Hres, decide_True; [done |].
      apply elem_of_app. destruct Hq as [-> | Hq]; [right; by left |].
      left. by apply elem_of_elements.
    + intros q Hqv Hq. rewrite Hres, decide_False; [done |].
      intros [(i & Hi & ->)%elem_of_elements | ->%list_elem_of_singleton]%elem_of_app;
        [by apply (Hq i) | done].
  - intros (cells' & [= <-] & Hother & Hnd & Halloc & Hgone & Hkept).
    split; [split; [done |]; split |]; [| | split].
    + intros x [_ Hx]%list_elem_of_filter [_ ->%list_elem_of_singleton]%list_elem_of_filter.
      done.
    + apply NoDup_filter, NoDup_singleton.
    + intros c [(i & Hi & ->)%elem_of_elements | ->%list_elem_of_singleton]%elem_of_app Hnull;
        [by apply Halloc | eauto].
    + intros q. case_decide as Hq.
      * apply Hgone.
        apply elem_of_app in Hq as [Hq%elem_of_elements | ->%list_elem_of_singleton];
          [by right | by left].
      * apply Hkept.
        -- intros ->. apply Hq, elem_of_app. right. by left.
        -- intros i Hi ->. apply Hq, elem_of_app. left. apply elem_of_elements. eauto.
Qed.

End Vector.

(** *** [map_probe_free] as a sequence of [free] *)

Lemma map_probe_free_from_cells (max_ttl : N) (map : gmap N N) (fuel : nat) :
  forall (i : N) (h : gmap N object),
    map_probe_free_from max_ttl fuel i map h
    = free_cells (omap (fun j => map !! j) (hops_from max_ttl fuel i)) h.
Proof.
  induction fuel as [| fuel IH]; intros i h; simpl; [done |].
  destruct (i <? max_ttl)%N; [| done]. simpl.
  destruct (map !! i) as [v |]; simpl; [| apply IH].
  destruct (free v h); [apply IH | done].
Qed.

Lemma elem_of_hop_vectors (max_ttl : N) (map : gmap N N) (v : N) :
  v ∈ hop_vectors max_ttl map <-> exists i, (1 <= i < max_ttl)%N /\ map !! i = Some v.
Proof.
  unfold hop_vectors. rewrite list_elem_of_omap. split.
  - intros (i & Hi%elem_of_hops_from & Hv). exists i. split; [lia | done].
  - intros (i & Hi & Hv). exists i. split; [| done]. apply elem_of_hops_from. lia.
Qed.

Lemma map_probe_free_hop_vectors (max_ttl : N) (map : gmap N N) (h : gmap N object) :
  map_probe_free max_ttl map h = free_cells (hop_vectors max_ttl map) h.
Proof. apply map_probe_free_from_cells. Qed.

Lemma NoDup_hop_vectors (max_ttl : N) (map : gmap N N) :
  NoDup (filter (fun c => c <> NULL) (hop_vectors max_ttl map)) <->
  forall i j v,
    (1 <= i < max_ttl)%N -> (1 <= j < max_ttl)%N ->
    map !! i = Some v -> map !! j = Some v -> v <> NULL -> i = j.
Proof.
  unfold hop_vectors. rewrite NoDup_filter_omap by apply NoDup_hops_from. split.
  - intros H i j v Hi Hj. apply H; apply elem_of_hops_from; lia.
  - intros H i j v Hi%elem_of_hops_from Hj%elem_of_hops_from. apply H; lia.
Qed.

(** X2: [map_probe_free] has a defined result exactly when, the null
    pointers apart, no two hops in [1, max_ttl) hold the same pointer and
    every pointer held at such a hop is allocated: a vector reachable
    from two hops is freed twice, while [free] does nothing on a null
    pointer, at however many hops it is found. *)
Theorem map_probe_free_defined (max_ttl : N) (map : gmap N N) (h : gmap N object) :
  is_Some (map_probe_free max_ttl map h) <->
  (forall i j v,
     (1 <= i < max_ttl)%N -> (1 <= j < max_ttl)%N ->
     map !! i = Some v -> map !! j = Some v -> v <> NULL -> i = j)
  /\ (forall i v,
        (1 <= i < max_ttl)%N -> map !! i = Some v -> v <> NULL -> is_Some (h !! v)).
Proof.
  rewrite map_probe_free_hop_vectors, free_cells_is_Some, NoDup_hop_vectors.
  split; intros [Hnd Halloc]; (split; [done |]).
  - intros i v Hi Hv. apply Halloc, elem_of_hop_vectors. eauto.
  - intros c (i & Hi & Hv)%elem_of_hop_vectors. eauto.
Qed.

(** X3: when [map_probe_free] returns, exactly the vectors stored at the
    hops [1 <= i < max_ttl] are gone; every other cell is unchanged, also
    the vectors stored at hop 0 or at hops from [max_ttl] on, and the
    enriched replies held by the freed vectors. *)
Theorem map_probe_free_result (max_ttl : N) (map : gmap N N) (h h' : gmap N object) :
  map_probe_free max_ttl map h = Some h' ->
  forall q,
    ((exists i, (1 <= i < max_ttl)%N /\ map !! i = Some q) -> h' !! q = None)
    /\ ((forall i, (1 <= i < max_ttl)%N -> map !! i <> Some q) -> h' !! q = h !! q).
Proof.
  rewrite map_probe_free_hop_vectors.
  intros (_ & _ & Hres)%free_cells_Some q. rewrite Hres. split.
  - intros Hq%elem_of_hop_vectors. by rewrite decide_True.
  - intros Hq. rewrite decide_False; [done |].
    intros (i & Hi & Hv)%elem_of_hop_vectors. by apply (Hq i).
Qed.

Lemma vector_enriched_reply_free_Some_witness :
  vector_enriched_reply_free MoreSamples.ith_pointer 20 MoreSamples.heap_with_vector
  = Some MoreSamples.heap_without_vector
  /\ exists cells,
       MoreSamples.heap_with_vector !! 20%N = Some (ObjVector cells)
       /\ (forall i, (i < num_cells cells)%N -> MoreSamples.ith_pointer cells i <> 20%N)
       /\ (forall i j,
             (i < num_cells cells)%N -> (j < num_cells cells)%N ->
             MoreSamples.ith_pointer cells i = MoreSamples.ith_pointer cells j ->
             MoreSamples.ith_pointer cells i <> NULL -> i = j)
       /\ (forall i,
             (i < num_cells cells)%N -> MoreSamples.ith_pointer cells i <> NULL ->
             is_Some (MoreSamples.heap_with_vector !! MoreSamples.ith_pointer cells i))
       /\ (forall q,
             (q = 20%N
              \/ exists i, (i < num_cells cells)%N /\ q = MoreSamples.ith_pointer cells i) ->
             MoreSamples.heap_without_vector !! q = None)
       /\ (forall q,
             q <> 20%N ->
             (forall i, (i < num_cells cells)%N -> q <> MoreSamples.ith_pointer cells i) ->
             MoreSamples.heap_without_vector !! q = MoreSamples.heap_with_vector !! q).
Proof.
  split; [reflexivity |].
  apply (proj1 (vector_enriched_reply_free_Some MoreSamples.ith_pointer 20
                  MoreSamples.heap_with_vector MoreSamples.heap_without_vector)).
  reflexivity.
Defined.

Lemma map_probe_free_defined_witness :
  is_Some (map_probe_free 4 MoreSamples.sparse_replies_by_ttl Samples.vectors)
  /\ (forall i j v,
        (1 <= i < 4)%N -> (1 <= j < 4)%N ->
        MoreSamples.sparse_replies_by_ttl !! i = Some v ->
        MoreSamples.sparse_replies_by_ttl !! j = Some v -> v <> NULL -> i = j)
  /\ (forall i v,
        (1 <= i < 4)%N -> MoreSamples.sparse_replies_by_ttl !! i = Some v ->
        v <> NULL -> is_Some (Samples.vectors !! v)).
Proof.
  assert (H : is_Some (map_probe_free 4 MoreSamples.sparse_replies_by_ttl Samples.vectors))
    by (eexists; reflexivity).
  split; [exact H |].
  exact (proj1 (map_probe_free_defined 4 MoreSamples.sparse_replies_by_ttl
                  Samples.vectors) H).
Defined.

Lemma map_probe_free_result_witness :
  map_probe_free 3 Samples.replies_by_ttl Samples.vectors
  = Some MoreSamples.last_vector
  /\ ((exists i, (1 <= i < 3)%N /\ Samples.replies_by_ttl !! i = Some 11%N) ->
      MoreSamples.last_vector !! 11%N = None)
  /\ ((forall i, (1 <= i < 3)%N -> Samples.replies_by_ttl !! i <> Some 12%N) ->
      MoreSamples.last_vector !! 12%N = Samples.vectors !! 12%N).
Proof.
  split; [reflexivity |].
  split.
  - apply (map_probe_free_result 3 Samples.replies_by_ttl Samples.vectors
             MoreSamples.last_vector); reflexivity.
  - apply (map_probe_free_result 3 Samples.replies_by_ttl Samples.vectors
             MoreSamples.last_vector); reflexivity.
Defined.

End EnrichedVectorsProps.

Module EnrichedHandlerProps.
Import Stdio Memory EnrichedData.

Section AnyBuild.

Variables (USE_FORMAT_JSON USE_FORMAT_XML : bool).
Variable malloc : gmap N object -> option N.

Abbreviation handler := (traceroute_enriched_handler USE_FORMAT_JSON USE_FORMAT_XML malloc).

Lemma new_enriched_reply_Some (ev : mda_event_t) (h h1 : gmap N object) (p : N)
    (contents : enriched_reply_t) :
  new_enriched_reply malloc ev h = Some (p, contents, h1) <->
  exists pr pb rp,
    h !! data ev = Some (ObjProbeReply pr)
    /\ h !! probe_reply_probe pr = Some (ObjProbe pb)
    /\ h !! probe_reply_reply pr = Some (ObjProbe rp)
    /\ malloc h = Some p
    /\ contents = {| reply := probe_reply_reply pr;
                     delay := recv_time rp - sending_time pb |}
    /\ h1 = <[p := ObjEnrichedReply contents]> h.
Proof.
  unfold new_enriched_reply, delay_probe_reply. split.
  - intros H. repeat case_match; simplify_eq. eauto 10.
  - intros (pr & pb & rp & Hd & Hpb & Hrp & Hm & -> & ->).
    by rewrite Hd, Hm, Hpb, Hrp.
Qed.

Lemma output_reply_user_data (ud : traceroute_enriched_user_data_t) (p : N)
    (c : enriched_reply_t) :
  let ud' := (output_reply USE_FORMAT_JSON USE_FORMAT_XML ud p c).1 in
  format ud' = format ud
  /\ (is_first_result ud = false -> ud' = ud)
  /\ (ud' <> ud ->
      USE_FORMAT_JSON = true /\ format ud = TRACEROUTE_OUTPUT_FORMAT_JSON
      /\ is_first_result ud = true /\ is_first_result ud' = false).
Proof.
  unfold output_reply.
  destruct ud as [[] []], USE_FORMAT_JSON, USE_FORMAT_XML; simpl; by repeat split.
Qed.

Lemma output_star_user_data (ud : traceroute_enriched_user_data_t) (p : N) :
  let ud' := (output_star USE_FORMAT_JSON USE_FORMAT_XML ud p).1 in
  format ud' = format ud
  /\ (is_first_result ud = false -> ud' = ud)
  /\ (ud' <> ud ->
      USE_FORMAT_JSON = true /\ format ud = TRACEROUTE_OUTPUT_FORMAT_JSON
      /\ is_first_result ud = true /\ is_first_result ud' = false).
Proof.
  unfold output_star.
  destruct ud as [[] []], USE_FORMAT_JSON, USE_FORMAT_XML; simpl; by repeat split.
Qed.

(** X5: whatever the event, a call of the handler that returns leaves
    the format unchanged; it can only change [is_first_result], from true
    to false, and only for a reply or a timeout under the JSON format in a
    JSON build; and, [malloc] returning unused addresses, the heap after
    the call is the heap before it. *)
Theorem handler_keeps_format_and_heap (ev : mda_event_t)
    (ud ud' : traceroute_enriched_user_data_t) (h h' : gmap N object)
    (os : list output) :
  handler ev ud h = Some (ud', h', os) ->
  format ud' = format ud
  /\ (is_first_result ud = false -> ud' = ud)
  /\ (ud' <> ud ->
      USE_FORMAT_JSON = true /\ format ud = TRACEROUTE_OUTPUT_FORMAT_JSON
      /\ is_first_result ud = true /\ is_first_result ud' = false
      /\ (type ev = MDA_PROBE_REPLY \/ type ev = MDA_PROBE_TIMEOUT))
  /\ ((forall p, malloc h = Some p -> h !! p = None) -> h' = h).
Proof.
  unfold traceroute_enriched_handler.
  destruct (type ev) eqn:Ht; try (intros [= <- <- <-]; by repeat split).
  - destruct (new_enriched_reply malloc ev h) as [[[p c] h1] |] eqn:Hnew; [| done].
    pose proof (output_reply_user_data ud p c) as (Hf & Hkeep & Hchange).
    destruct (output_reply _ _ ud p c) as [ud1 os1]. simpl in *.
    apply new_enriched_reply_Some in Hnew as (pr & pb & rp & _ & _ & _ & Hm & _ & ->).
    unfold free. rewrite lookup_insert_eq. intros [= <- <- <-].
    split; [done |]. split; [done |].
    split; [intros H; destruct (Hchange H) as (? & ? & ? & ?); auto 10 |].
    intros Hfresh. rewrite delete_insert_eq. apply delete_id. by apply Hfresh.
  - pose proof (output_star_user_data ud (data ev)) as (Hf & Hkeep & Hchange).
    destruct (output_star _ _ ud (data ev)) as [ud1 os1]. simpl in *.
    intros [= <- <- <-].
    split; [done |]. split; [done |].
    split; [intros H; destruct (Hchange H) as (? & ? & ? & ?); auto 10 |].
    done.
Qed.

(** X6: the handler has a defined result for every event that is not a
    reply; for a reply, exactly when the payload is a [probe_reply_t] whose
    two pointers designate probes and [malloc] does not return [NULL]
    (the result of [malloc] is dereferenced unchecked). *)
Theorem handler_defined (ev : mda_event_t) (ud : traceroute_enriched_user_data_t)
    (h : gmap N object) :
  is_Some (handler ev ud h) <->
  type ev <> MDA_PROBE_REPLY
  \/ exists pr pb rp p,
       h !! data ev = Some (ObjProbeReply pr)
       /\ h !! probe_reply_probe pr = Some (ObjProbe pb)
       /\ h !! probe_reply_reply pr = Some (ObjProbe rp)
       /\ malloc h = Some p.
Proof.
  unfold traceroute_enriched_handler.
  destruct (type ev) eqn:Ht;
    try (split; [intros _; by left | intros _]; by repeat case_match).
  destruct (new_enriched_reply malloc ev h) as [[[p c] h1] |] eqn:Hnew.
  - apply new_enriched_reply_Some in Hnew as (pr & pb & rp & Hd & Hpb & Hrp & Hm & _ & ->).
    destruct (output_reply _ _ ud p c) as [ud1 os1].
    unfold free. rewrite lookup_insert_eq. split; [| eauto].
    intros _. right. eauto 10.
  - split; [by intros [? ?] |]. intros [? | (pr & pb & rp & p & Hd & Hpb & Hrp & Hm)]; [done |].
    exfalso.
    assert (H : new_enriched_reply malloc ev h
                = Some (p, {| reply := probe_reply_reply pr;
                              delay := recv_time rp - sending_time pb |},
                        <[p := ObjEnrichedReply
                                 {| reply := probe_reply_reply pr;
                                    delay := recv_time rp - sending_time pb |}]> h))
      by (apply new_enriched_reply_Some; eauto 10).
    congruence.
Qed.

(** X7: under a format whose case is not compiled in (JSON without
    USE_FORMAT_JSON, XML without USE_FORMAT_XML) the inner switches match no
    case: replies and timeouts write nothing and leave the user data alone,
    and any other event writes only the diagnostic of the [default]
    label. *)
Theorem format_not_built_is_silent (ev : mda_event_t)
    (ud ud' : traceroute_enriched_user_data_t) (h h' : gmap N object)
    (os : list output) :
  (format ud = TRACEROUTE_OUTPUT_FORMAT_JSON /\ USE_FORMAT_JSON = false)
  \/ (format ud = TRACEROUTE_OUTPUT_FORMAT_XML /\ USE_FORMAT_XML = false) ->
  handler ev ud h = Some (ud', h', os) ->
  ud' = ud
  /\ os = match type ev with
          | MDA_PROBE_REPLY | MDA_PROBE_TIMEOUT => []
          | t => [Printf unhandled_event t]
          end.
Proof.
  intros Hbuild. unfold traceroute_enriched_handler, output_reply, output_star, output_ends.
  destruct (type ev) eqn:Ht; destruct Hbuild as [[Hf Hb] | [Hf Hb]];
    rewrite ?Hf, ?Hb; repeat case_match; intros; simplify_eq; done.
Qed.

(** X4: freeing the result of [enriched_reply_shallow_copy] gives back the
    heap the copy was made in: the copy owns nothing but its own cell, which
    holds the contents of the original. *)
Theorem shallow_copy_then_free (r p : N) (h h' : gmap N object) :
  enriched_reply_shallow_copy malloc r h = Some (p, h') ->
  h !! p = None ->
  free p h' = Some h
  /\ exists v, h !! r = Some (ObjEnrichedReply v)
               /\ h' !! p = Some (ObjEnrichedReply v).
Proof.
  unfold enriched_reply_shallow_copy. intros H Hp.
  repeat case_match; simplify_eq. split.
  - unfold free. rewrite lookup_insert_eq. f_equal.
    rewrite delete_insert_eq. by apply delete_id.
  - eexists. split; [done |]. rewrite lookup_insert_eq.
    by match goal with |- context [reply ?x] => destruct x end.
Qed.

End AnyBuild.

Lemma handler_keeps_format_and_heap_witness :
  let ud := Samples.user_data_of TRACEROUTE_OUTPUT_FORMAT_JSON in
  let ud' := {| format := TRACEROUTE_OUTPUT_FORMAT_JSON; is_first_result := false |} in
  format ud' = format ud
  /\ (is_first_result ud = false -> ud' = ud)
  /\ (ud' <> ud ->
      true = true /\ format ud = TRACEROUTE_OUTPUT_FORMAT_JSON
      /\ is_first_result ud = true /\ is_first_result ud' = false
      /\ (type Samples.reply_event = MDA_PROBE_REPLY
          \/ type Samples.reply_event = MDA_PROBE_TIMEOUT))
  /\ ((forall p, Samples.lowest_free Samples.heap0 = Some p -> Samples.heap0 !! p = None) ->
      Samples.heap0 = Samples.heap0).
Proof.
  apply (handler_keeps_format_and_heap true true Samples.lowest_free Samples.reply_event
           (Samples.user_data_of TRACEROUTE_OUTPUT_FORMAT_JSON)
           {| format := TRACEROUTE_OUTPUT_FORMAT_JSON; is_first_result := false |}
           Samples.heap0 Samples.heap0
           [Reply_to_json 5 {| reply := 2; delay := 40 |} stdout]).
  reflexivity.
Defined.

Lemma handler_defined_witness :
  type Samples.reply_event <> MDA_PROBE_REPLY
  \/ exists pr pb rp p,
       Samples.heap0 !! data Samples.reply_event = Some (ObjProbeReply pr)
       /\ Samples.heap0 !! probe_reply_probe pr = Some (ObjProbe pb)
       /\ Samples.heap0 !! probe_reply_reply pr = Some (ObjProbe rp)
       /\ Samples.lowest_free Samples.heap0 = Some p.
Proof.
  apply (proj1 (handler_defined true true Samples.lowest_free Samples.reply_event
                  (Samples.user_data_of TRACEROUTE_OUTPUT_FORMAT_DEFAULT) Samples.heap0)).
  eexists. reflexivity.
Defined.

Lemma format_not_built_is_silent_witness :
  Samples.user_data_of TRACEROUTE_OUTPUT_FORMAT_JSON
  = Samples.user_data_of TRACEROUTE_OUTPUT_FORMAT_JSON
  /\ [Printf unhandled_event MDA_ENDS]
     = match type Samples.ends_event with
       | MDA_PROBE_REPLY | MDA_PROBE_TIMEOUT => []
       | t => [Printf unhandled_event t]
       end.
Proof.
  apply (format_not_built_is_silent false true Samples.lowest_free Samples.ends_event
           (Samples.user_data_of TRACEROUTE_OUTPUT_FORMAT_JSON)
           (Samples.user_data_of TRACEROUTE_OUTPUT_FORMAT_JSON)
           Samples.heap0 Samples.heap0 [Printf unhandled_event MDA_ENDS]);
    [left; split; reflexivity | reflexivity].
Defined.

Lemma shallow_copy_then_free_witness :
  free 5 (<[5%N := ObjEnrichedReply {| reply := 2; delay := 40 |}]> Samples.heap0)
  = Some Samples.heap0
  /\ exists v, Samples.heap0 !! 4%N = Some (ObjEnrichedReply v)
               /\ (<[5%N := ObjEnrichedReply {| reply := 2; delay := 40 |}]> Samples.heap0)
                    !! 5%N = Some (ObjEnrichedReply v).
Proof.
  apply (shallow_copy_then_free Samples.lowest_free 4 5 Samples.heap0
           (<[5%N := ObjEnrichedReply {| reply := 2; delay := 40 |}]> Samples.heap0));
    reflexivity.
Defined.

End EnrichedHandlerProps.

(** ** Properties of [loop_handler] *)

Module LoopHandlerProps.
Import Stdio ParisTraceroute LoopHandler MainPaths.

(** X19: [loop_handler] stops the loop on [ALGORITHM_TERMINATED], whatever
    the algorithm, and on no other event. *)
Theorem loop_terminates_on_termination_only (event : event_t) (calls : list call) :
  loop_handler event = Some calls ->
  existsb is_pt_loop_terminate calls = true <-> type event = ALGORITHM_TERMINATED.
Proof.
  unfold loop_handler. destruct (type event) eqn:Ht.
  - intros [= <-]. rewrite existsb_app. simpl. by rewrite orb_true_r.
  - intros H. split; [| done]. repeat case_match; simplify_eq; done.
  - intros [= <-]. done.
Qed.

(** X20: every instance [main] adds to the loop is one [loop_handler]
    dispatches on: the events of a "traceroute" instance are forwarded to
    [traceroute_handler] with the options of the instance, and of the
    events of an "mda" instance only [MDA_NEW_LINK] produces output (the
    link, resolved as the options say); replies, timeouts and the end of
    MDA are dropped. *)
Theorem registered_instance_is_dispatched (env : environment) (argv : cmdline)
    (name_ : string) (options_ : algorithm_options) :
  MainPaths.registered (main env argv) = Some (name_, options_) ->
  (name_ = "traceroute"
   /\ forall d e,
        loop_handler {| type := ALGORITHM_EVENT;
                        issuer := {| name := name_; options := options_;
                                     instance_data := d |};
                        data := Traceroute_event e |}
        = Some [Traceroute_handler e (traceroute_options_of options_) d])
  \/ (name_ = "mda"
      /\ forall d mda_event,
           loop_handler {| type := ALGORITHM_EVENT;
                           issuer := {| name := name_; options := options_;
                                        instance_data := d |};
                           data := Mda_event mda_event |}
           = Some match EnrichedData.type mda_event with
                  | EnrichedData.MDA_NEW_LINK =>
                      [Mda_link_dump (EnrichedData.data mda_event)
                         (do_resolv (traceroute_options_of options_))]
                  | _ => []
                  end).
Proof.
  intros [(_ & -> & _) | (_ & -> & _)]%MainPathsProps.registered_cases.
  - left. split; [done |]. reflexivity.
  - right. split; [done |]. intros d mda_event. unfold loop_handler. simpl.
    by destruct (EnrichedData.type mda_event).
Qed.

Lemma loop_terminates_on_termination_only_witness :
  existsb is_pt_loop_terminate
    [Printf (String.append "Lattice:" LF); Lattice_dump 7; Printf LF; Pt_loop_terminate]
  = true
  <-> type MoreSamples.mda_terminated = ALGORITHM_TERMINATED.
Proof.
  apply (loop_terminates_on_termination_only MoreSamples.mda_terminated). reflexivity.
Defined.

Lemma registered_instance_is_dispatched_witness :
  ("traceroute" = "traceroute"
   /\ forall d e,
        loop_handler {| type := ALGORITHM_EVENT;
                        issuer := {| name := "traceroute";
                                     options := Traceroute_options
                                                  (common_options
                                                     (initial_globals Samples.library_defaults)
                                                     (Address AF_INET "example.test"));
                                     instance_data := d |};
                        data := Traceroute_event e |}
        = Some [Traceroute_handler e
                  (common_options (initial_globals Samples.library_defaults)
                     (Address AF_INET "example.test")) d])
  \/ ("traceroute" = "mda"
      /\ forall d mda_event,
           loop_handler {| type := ALGORITHM_EVENT;
                           issuer := {| name := "traceroute";
                                        options := Traceroute_options
                                                     (common_options
                                                        (initial_globals
                                                           Samples.library_defaults)
                                                        (Address AF_INET "example.test"));
                                        instance_data := d |};
                           data := Mda_event mda_event |}
           = Some match EnrichedData.type mda_event with
                  | EnrichedData.MDA_NEW_LINK =>
                      [Mda_link_dump (EnrichedData.data mda_event)
                         (do_resolv
                            (common_options (initial_globals Samples.library_defaults)
                               (Address AF_INET "example.test")))]
                  | _ => []
                  end).
Proof.
  apply (registered_instance_is_dispatched Samples.friendly (Samples.command [])).
  reflexivity.
Defined.

End LoopHandlerProps.
